(** * beeb-mmb-tools: a shallow embedding of [main.py]

    The MMB container is a single file: an 8-byte drive mapping, 8 bytes of
    padding, 511 catalog records of 16 bytes (12 name bytes, 3 padding
    bytes, 1 status byte), then 511 payload slots of 200 KiB each.

    Bytes are [Z] values in [0, 256).  A Python [str] is its list of code
    points ([list Z]); [bytes] is a [list Z].  Python exceptions become the
    [Err] branch of a small state/error monad over the file system. *)

From Stdlib Require Import String Ascii.
From Stdlib Require Import ZArith List Bool Lia FunctionalExtensionality.
Import ListNotations.
Open Scope Z_scope.
Open Scope list_scope.

(* ------------------------------------------------------------------ *)
(** ** Python strings and UTF-8 *)

Definition pystr := list Z.
Definition pybytes := list Z.

(** An ASCII literal as a Python string. *)
Fixpoint s2py (s : String.string) : pystr :=
  match s with
  | String.EmptyString => []
  | String.String c r => Z.of_nat (Ascii.nat_of_ascii c) :: s2py r
  end.

Definition is_surrogate (c : Z) : bool := (0xD800 <=? c) && (c <=? 0xDFFF).

(** [str.encode('utf-8')] on one code point; surrogates raise
    [UnicodeEncodeError] ([None]). *)
Definition utf8_encode_char (c : Z) : option pybytes :=
  if c <? 0x80 then Some [c]
  else if c <? 0x800 then Some [0xC0 + c / 64; 0x80 + c mod 64]
  else if is_surrogate c then None
  else if c <? 0x10000 then
    Some [0xE0 + c / 4096; 0x80 + (c / 64) mod 64; 0x80 + c mod 64]
  else
    Some [0xF0 + c / 262144; 0x80 + (c / 4096) mod 64;
          0x80 + (c / 64) mod 64; 0x80 + c mod 64].

Fixpoint utf8_encode (s : pystr) : option pybytes :=
  match s with
  | [] => Some []
  | c :: r =>
      match utf8_encode_char c, utf8_encode r with
      | Some b, Some rb => Some (b ++ rb)
      | _, _ => None
      end
  end.

Definition is_cont (b : Z) : bool := (0x80 <=? b) && (b <=? 0xBF).

(** [bytes.decode('utf-8')] (strict): overlong forms, surrogates and
    code points above U+10FFFF raise [UnicodeDecodeError] ([None]). *)
Fixpoint utf8_decode (bs : pybytes) : option pystr :=
  match bs with
  | [] => Some []
  | b1 :: r1 =>
      if b1 <? 0x80 then option_map (cons b1) (utf8_decode r1)
      else if (0xC2 <=? b1) && (b1 <=? 0xDF) then
        match r1 with
        | b2 :: r2 =>
            if is_cont b2
            then option_map (cons ((b1 - 0xC0) * 64 + (b2 - 0x80)))
                            (utf8_decode r2)
            else None
        | [] => None
        end
      else if (0xE0 <=? b1) && (b1 <=? 0xEF) then
        match r1 with
        | b2 :: b3 :: r3 =>
            let lo := if b1 =? 0xE0 then 0xA0 else 0x80 in
            let hi := if b1 =? 0xED then 0x9F else 0xBF in
            if (lo <=? b2) && (b2 <=? hi) && is_cont b3
            then option_map
                   (cons ((b1 - 0xE0) * 4096 + (b2 - 0x80) * 64 + (b3 - 0x80)))
                   (utf8_decode r3)
            else None
        | _ => None
        end
      else if (0xF0 <=? b1) && (b1 <=? 0xF4) then
        match r1 with
        | b2 :: b3 :: b4 :: r4 =>
            let lo := if b1 =? 0xF0 then 0x90 else 0x80 in
            let hi := if b1 =? 0xF4 then 0x8F else 0xBF in
            if (lo <=? b2) && (b2 <=? hi) && is_cont b3 && is_cont b4
            then option_map
                   (cons ((b1 - 0xF0) * 262144 + (b2 - 0x80) * 4096
                          + (b3 - 0x80) * 64 + (b4 - 0x80)))
                   (utf8_decode r4)
            else None
        | _ => None
        end
      else None
  end.

(** [bytes.rstrip(b' \t\n\r\x00')] *)
Definition in_strip_set (b : Z) : bool :=
  (b =? 0x20) || (b =? 0x09) || (b =? 0x0A) || (b =? 0x0D) || (b =? 0x00).

Fixpoint drop_while (p : Z -> bool) (l : list Z) : list Z :=
  match l with
  | [] => []
  | x :: r => if p x then drop_while p r else l
  end.

Definition rstrip (bs : pybytes) : pybytes :=
  rev (drop_while in_strip_set (rev bs)).

(** [parse_name(s)]: [s.rstrip(b' \t\n\r\x00').decode('utf-8')] *)
Definition parse_name (s : pybytes) : option pystr :=
  utf8_decode (rstrip s).

(** [as_name(s)]: [s = s[:12]; s += '\x00' * (12 - len(s));
    return s.encode('utf-8')].  The slice and the padding count code
    points, not bytes. *)
Definition as_name (s : pystr) : option pybytes :=
  let s := firstn 12 s in
  let n := 12 - Z.of_nat (length s) in
  utf8_encode (s ++ repeat 0 (Z.to_nat n)).

(* ------------------------------------------------------------------ *)
(** ** Status bytes *)

Inductive Status := INVALID | READONLY | READWRITE | UNFORMATTED.

Definition Status_eqb (a b : Status) : bool :=
  match a, b with
  | INVALID, INVALID | READONLY, READONLY
  | READWRITE, READWRITE | UNFORMATTED, UNFORMATTED => true
  | _, _ => false
  end.

(** [parse_status] on the byte value [status[0]]. *)
Definition parse_status_byte (status : Z) : Status :=
  if status =? 0 then READONLY
  else if (1 <=? status) && (status <=? 0x7F) then READWRITE
  else if (0x80 <=? status) && (status <=? 0xFE) then UNFORMATTED
  else INVALID.

Definition as_status (s : Status) : pybytes :=
  match s with
  | INVALID => [0xFF]
  | READONLY => [0x00]
  | READWRITE => [0x0F]
  | UNFORMATTED => [0xF0]
  end.

Record Disk := mkDisk { name : pystr; status : Status }.

Definition is_formatted (d : Disk) : bool :=
  match status d with READONLY | READWRITE => true | _ => false end.

(* ------------------------------------------------------------------ *)
(** ** Files, positioned I/O and the file system *)

(** A file: its length and its bytes (bytes never written read as 0, which
    is what a write past the end leaves in the gap). *)
Record file := mkFile { f_len : Z; f_data : Z -> Z }.

Definition empty_file : file := mkFile 0 (fun _ => 0).

Definition file_write (fl : file) (off : Z) (bs : pybytes) : file :=
  match bs with
  | [] => fl
  | _ :: _ =>
      mkFile (Z.max (f_len fl) (off + Z.of_nat (length bs)))
             (fun a => if (off <=? a) && (a <? off + Z.of_nat (length bs))
                       then nth (Z.to_nat (a - off)) bs 0
                       else f_data fl a)
  end.

(** [f.read(n)] at [off] returns at most [n] bytes, fewer at end of file. *)
Definition read_count (fl : file) (off n : Z) : nat :=
  Z.to_nat (Z.min n (f_len fl - off)).

Definition file_read (fl : file) (off n : Z) : pybytes :=
  map (fun k => f_data fl (off + Z.of_nat k)) (seq 0 (read_count fl off n)).

Definition path := pystr.

Definition path_eqb (p q : path) : bool :=
  if list_eq_dec Z.eq_dec p q then true else false.

Definition fs_set (fs : path -> option file) (p : path) (v : option file) :=
  fun q => if path_eqb q p then v else fs q.

(** The value [index(s)] hands to an action: the argparse [type=index]
    converter returns [ValueError(s)] (it does not raise it) when
    [not (0 <= i <= 511)]. *)
Inductive pyidx := PInt (i : Z) | PValueError (s : Z).

Definition index (i : Z) : pyidx :=
  if negb ((0 <=? i) && (i <=? 511)) then PValueError i else PInt i.

(** The messages of [Oops], one constructor per [ensure] site. *)
Inductive msg :=
| MsgFileExists (p : path)              (* f'file {mmb} exists' *)
| MsgDisksUnique                        (* 'disk numbers must be unique' *)
| MsgDiskIs (i : pyidx) (s : Status)    (* f'disk {index} is {STATUS_STR[..]}' *)
| MsgNoFreeIndices                      (* 'no free indices' *)
| MsgSsdEmpty                           (* 'ssd cannot be empty' *)
| MsgSsdTooLarge                        (* 'ssd cannot be larger than 200 KiB' *)
| MsgIndexIsOccupied (i : pyidx)        (* f'index {index} is occupied' *)
| MsgNoDisk (i : pyidx)                 (* f'no disk in index {src}' *)
| MsgIndexOccupied (i : pyidx).         (* f'index {dst} occupied' *)

Inductive pyerr :=
| Oops (m : msg)
| IndexError
| TypeError
| ValueError
| UnicodeDecodeError
| UnicodeEncodeError
| FileNotFoundError.

(** Every positioned access to a file, in program order. *)
Inductive event :=
| ERead (p : path) (off n : Z)
| EWrite (p : path) (off : Z) (bs : pybytes)
| ETruncate (p : path).

Record world := mkWorld { fs : path -> option file; trace : list event }.

Inductive res (A : Type) := Ok (a : A) | Err (e : pyerr).
Arguments Ok {A} a.
Arguments Err {A} e.

Definition M (A : Type) := world -> res A * world.

Definition ret {A} (a : A) : M A := fun w => (Ok a, w).

Definition bind {A B} (m : M A) (k : A -> M B) : M B :=
  fun w => match m w with
           | (Ok a, w') => k a w'
           | (Err e, w') => (Err e, w')
           end.

Definition raise {A} (e : pyerr) : M A := fun w => (Err e, w).

Notation "x <- m ;; k" := (bind m (fun x => k))
  (at level 61, m at next level, right associativity).
Notation "' pat <- m ;; k" := (bind m (fun x => match x with pat => k end))
  (at level 61, pat pattern, m at next level, right associativity).

(** [ensure(condition, message)] *)
Definition ensure (c : bool) (m : msg) : M unit :=
  if c then ret tt else raise (Oops m).

Definition lift {A} (o : option A) (e : pyerr) : M A :=
  match o with Some a => ret a | None => raise e end.

Record handle := mkHandle { h_path : path; h_pos : Z }.

Definition path_exists (p : path) : M bool :=
  fun w => (Ok (match fs w p with Some _ => true | None => false end), w).

(** [open(p, 'rb+')] and [open(p, 'rb')] *)
Definition open_existing (p : path) : M handle :=
  fun w => match fs w p with
           | Some _ => (Ok (mkHandle p 0), w)
           | None => (Err FileNotFoundError, w)
           end.

(** [open(p, 'wb')] creates or truncates. *)
Definition open_wb (p : path) : M handle :=
  fun w => (Ok (mkHandle p 0),
            mkWorld (fs_set (fs w) p (Some empty_file)) (trace w ++ [ETruncate p])).

Definition seek (f : handle) (off : Z) : M handle :=
  if off <? 0 then raise ValueError else ret (mkHandle (h_path f) off).

Definition write (f : handle) (bs : pybytes) : M handle :=
  fun w => match fs w (h_path f) with
           | Some fl =>
               (Ok (mkHandle (h_path f) (h_pos f + Z.of_nat (length bs))),
                mkWorld (fs_set (fs w) (h_path f) (Some (file_write fl (h_pos f) bs)))
                        (trace w ++ [EWrite (h_path f) (h_pos f) bs]))
           | None => (Err FileNotFoundError, w)
           end.

Definition read (f : handle) (n : Z) : M (pybytes * handle) :=
  fun w => match fs w (h_path f) with
           | Some fl =>
               let bs := file_read fl (h_pos f) n in
               (Ok (bs, mkHandle (h_path f) (h_pos f + Z.of_nat (length bs))),
                mkWorld (fs w) (trace w ++ [ERead (h_path f) (h_pos f) n]))
           | None => (Err FileNotFoundError, w)
           end.

(** [f.read()] with no size: the rest of the file. *)
Definition read_all (f : handle) : M (pybytes * handle) :=
  fun w => match fs w (h_path f) with
           | Some fl => read f (f_len fl - h_pos f) w
           | None => (Err FileNotFoundError, w)
           end.

(** [os.path.getsize(p)] *)
Definition getsize (p : path) : M Z :=
  fun w => match fs w p with
           | Some fl => (Ok (f_len fl), w)
           | None => (Err FileNotFoundError, w)
           end.

(** [catalog[index]] on a Python list (negative indices count from the
    end; a [ValueError] object as index raises [TypeError]). *)
Definition dflt_disk := mkDisk [] INVALID.

Definition getitem (catalog : list Disk) (i : pyidx) : M Disk :=
  match i with
  | PValueError _ => raise TypeError
  | PInt i =>
      let n := Z.of_nat (length catalog) in
      if (0 <=? i) && (i <? n) then ret (nth (Z.to_nat i) catalog dflt_disk)
      else if (- n <=? i) && (i <? 0) then ret (nth (Z.to_nat (n + i)) catalog dflt_disk)
      else raise IndexError
  end.

(** Arithmetic on the index ([16 + index * 16]). *)
Definition as_int (i : pyidx) : M Z :=
  match i with PInt i => ret i | PValueError _ => raise TypeError end.

(* ------------------------------------------------------------------ *)
(** ** Container model *)

Definition SLOTS : Z := 511.
Definition SLOT_SIZE : Z := 200 * 1024.
Definition CONTAINER_SIZE : Z := 8192 + 511 * 200 * 1024.

(** [parse_status(status)]: [int(status[0])] raises [IndexError] on [b'']. *)
Definition parse_status (s : pybytes) : M Status :=
  match s with
  | [] => raise IndexError
  | b :: _ => ret (parse_status_byte b)
  end.

(** The body of [for index in range(511)] in [read_catalog]. *)
Fixpoint read_records (f : handle) (n : nat) : M (list Disk * handle) :=
  match n with
  | O => ret ([], f)
  | S n' =>
      '(nb, f) <- read f 12 ;;
      nm <- lift (parse_name nb) UnicodeDecodeError ;;
      '(_, f) <- read f 3 ;;
      '(sb, f) <- read f 1 ;;
      st <- parse_status sb ;;
      '(rest, f) <- read_records f n' ;;
      ret (mkDisk nm st :: rest, f)
  end.

Definition read_catalog (f : handle) : M (list Disk * handle) :=
  f <- seek f 16 ;;
  read_records f 511.

(** [read_mapping(f)] *)
Definition read_mapping (f : handle) : M (list Z) :=
  f <- seek f 0 ;;
  '(mapping, _) <- read f 8 ;;
  ret (map (fun '(lo, hi) => hi * 256 + lo)
           (combine (firstn 4 mapping) (skipn 4 mapping))).

(** [for index in range(511): f.seek(16 + index * 16 + 15); f.write(b'\xF0')] *)
Fixpoint nw_statuses (f : handle) (index : Z) (n : nat) : M handle :=
  match n with
  | O => ret f
  | S n' =>
      f <- seek f (16 + index * 16 + 15) ;;
      f <- write f [0xF0] ;;
      nw_statuses f (index + 1) n'
  end.

Definition action_nw (mmb : path) (force : bool) : M unit :=
  ex <- path_exists mmb ;;
  _ <- ensure (negb ex || force) (MsgFileExists mmb) ;;
  f <- open_wb mmb ;;
  f <- write f [0x00; 0x01; 0x02; 0x03; 0x00; 0x00; 0x00; 0x00] ;;
  f <- write f [0x00; 0x00; 0x00; 0x00; 0x00; 0x00; 0x00; 0x00] ;;
  f <- nw_statuses f 0 511 ;;
  f <- seek f (8192 + 511 * 200 * 1024 - 1) ;;
  _ <- write f [0x00] ;;
  ret tt.

(** [len(set([d0, d1, d2, d3])) == 4]: ints compare by value, two distinct
    [ValueError] objects never compare equal. *)
Definition pyidx_eqb (a b : pyidx) : bool :=
  match a, b with PInt x, PInt y => x =? y | _, _ => false end.

Definition all_distinct4 (d0 d1 d2 d3 : pyidx) : bool :=
  negb (pyidx_eqb d0 d1 || pyidx_eqb d0 d2 || pyidx_eqb d0 d3
        || pyidx_eqb d1 d2 || pyidx_eqb d1 d3 || pyidx_eqb d2 d3).

(** [bytes(list)] raises [ValueError] for a value outside [0, 256). *)
Definition to_bytes (l : list Z) : M pybytes :=
  if forallb (fun b => (0 <=? b) && (b <? 256)) l then ret l else raise ValueError.

Definition action_dd (mmb : path) (d0 d1 d2 d3 : pyidx) : M unit :=
  _ <- ensure (all_distinct4 d0 d1 d2 d3) MsgDisksUnique ;;
  x0 <- as_int d0 ;; x1 <- as_int d1 ;; x2 <- as_int d2 ;; x3 <- as_int d3 ;;
  mapping <- to_bytes [Z.land x0 255; Z.land x1 255; Z.land x2 255; Z.land x3 255;
                       x0 / 256; x1 / 256; x2 / 256; x3 / 256] ;;
  f <- open_existing mmb ;;
  _ <- write f mapping ;;
  ret tt.

(* ------------------------------------------------------------------ *)
(** ** Slot operations *)

(** The loop of [visit]: [assertion(index, catalog[index])] against the
    catalog read once at the start, then [f.seek(16 + index * 16);
    action(f)]. *)
Fixpoint visit_loop (catalog : list Disk) (f : handle) (indices : list pyidx)
    (assertion : option (pyidx -> Disk -> M unit)) (action : handle -> M handle)
    : M unit :=
  match indices with
  | [] => ret tt
  | index :: rest =>
      _ <- match assertion with
           | Some a => d <- getitem catalog index ;; a index d
           | None => ret tt
           end ;;
      i <- as_int index ;;
      f <- seek f (16 + i * 16) ;;
      f <- action f ;;
      visit_loop catalog f rest assertion action
  end.

(** [visit(mmb, indices, assertion, action)]; a caller passing a single
    index passes the one-element list that [isinstance] wraps it into. *)
Definition visit (mmb : path) (indices : list pyidx)
    (assertion : option (pyidx -> Disk -> M unit)) (action : handle -> M handle)
    : M unit :=
  f <- open_existing mmb ;;
  '(catalog, f) <- read_catalog f ;;
  visit_loop catalog f indices assertion action.

Definition mk_ensurer (st : Status) : pyidx -> Disk -> M unit :=
  fun index disk => ensure (Status_eqb (status disk) st) (MsgDiskIs index (status disk)).

Definition mk_marker (st : Status) : handle -> M handle :=
  fun f => f <- seek f (h_pos f + 15) ;; write f (as_status st).

Definition action_rm (mmb : path) (indices : list pyidx) : M unit :=
  visit mmb indices (Some (mk_ensurer READWRITE)) (mk_marker UNFORMATTED).

Definition action_un (mmb : path) (indices : list pyidx) : M unit :=
  visit mmb indices (Some (mk_ensurer UNFORMATTED)) (mk_marker READWRITE).

Definition action_ro (mmb : path) (indices : list pyidx) : M unit :=
  visit mmb indices (Some (mk_ensurer READWRITE)) (mk_marker READONLY).

Definition action_rw (mmb : path) (indices : list pyidx) : M unit :=
  visit mmb indices (Some (mk_ensurer READONLY)) (mk_marker READWRITE).

Definition action_rn (mmb : path) (index : pyidx) (nm : pystr) : M unit :=
  visit mmb [index] (Some (mk_ensurer READWRITE))
        (fun f => bs <- lift (as_name nm) UnicodeEncodeError ;; write f bs).

(** [str.rfind(c)], [-1] when absent. *)
Definition rfind (c : Z) (s : pystr) : Z :=
  snd (fold_left (fun '(i, r) x => (i + 1, if x =? c then i else r)) s (0, -1)).

(** [os.path.basename] (POSIX). *)
Definition basename (p : path) : pystr :=
  skipn (Z.to_nat (rfind 47 p + 1)) p.

(** [os.path.splitext]: split at the last dot, unless every character
    before it (after the last separator) is a dot. *)
Definition splitext (p : pystr) : pystr * pystr :=
  let sep := rfind 47 p in
  let dot := rfind 46 p in
  if sep <? dot then
    let stem := skipn (Z.to_nat (sep + 1)) (firstn (Z.to_nat dot) p) in
    if existsb (fun c => negb (c =? 46)) stem
    then (firstn (Z.to_nat dot) p, skipn (Z.to_nat dot) p)
    else (p, [])
  else (p, []).

(** [sorted(set(range(511)) - formatted)]: the free indices in order. *)
Definition free_indices (catalog : list Disk) : list Z :=
  filter (fun i => negb (is_formatted (nth (Z.to_nat i) catalog dflt_disk)))
         (map Z.of_nat (seq 0 511)).

Definition action_im (mmb : path) (index : option pyidx) (ssd : path)
    (nm : option pystr) (readonly force : bool) : M unit :=
  f <- open_existing mmb ;;
  '(catalog, f) <- read_catalog f ;;
  index <- match index with
           | Some i => ret i
           | None =>
               let available := free_indices catalog in
               _ <- ensure (negb (match available with [] => true | _ => false end))
                           MsgNoFreeIndices ;;
               ret (PInt (hd 0 available))
           end ;;
  size <- getsize ssd ;;
  _ <- ensure (0 <? size) MsgSsdEmpty ;;
  _ <- ensure (size <=? 200 * 1024) MsgSsdTooLarge ;;
  d <- getitem catalog index ;;
  _ <- ensure (negb (is_formatted d) || force) (MsgIndexIsOccupied index) ;;
  g <- open_existing ssd ;;
  '(disk, _) <- read_all g ;;
  let nm := match nm with
            | Some n => n
            | None => fst (splitext (basename ssd))
            end in
  i <- as_int index ;;
  f <- seek f (16 + i * 16) ;;
  bs <- lift (as_name nm) UnicodeEncodeError ;;
  f <- write f bs ;;
  f <- write f [0x00; 0x00; 0x00] ;;
  f <- write f (if readonly then [0x00] else [0x0F]) ;;
  f <- seek f (8192 + i * 200 * 1024) ;;
  _ <- write f disk ;;
  ret tt.

Definition action_cp (mmb : path) (src dst : pyidx) (force : bool) : M unit :=
  f <- open_existing mmb ;;
  '(catalog, f) <- read_catalog f ;;
  s <- getitem catalog src ;;
  _ <- ensure (is_formatted s) (MsgNoDisk src) ;;
  d <- getitem catalog dst ;;
  _ <- ensure (negb (is_formatted d) || force) (MsgIndexOccupied dst) ;;
  si <- as_int src ;;
  di <- as_int dst ;;
  f <- seek f (8192 + si * 200 * 1024) ;;
  '(disk, f) <- read f (200 * 1024) ;;
  f <- seek f (8192 + di * 200 * 1024) ;;
  f <- write f disk ;;
  f <- seek f (16 + si * 16) ;;
  '(name_etc, f) <- read f 16 ;;
  f <- seek f (16 + di * 16) ;;
  _ <- write f name_etc ;;
  ret tt.

(** [action_mv]: [action_cp] then [action_rm(mmb, src)]. *)
Definition action_mv (mmb : path) (src dst : pyidx) (force : bool) : M unit :=
  _ <- action_cp mmb src dst force ;;
  action_rm mmb [src].

(* ------------------------------------------------------------------ *)
(** ** Export and listing *)

(** The loop of [action_ex]: for each index, [catalog[index]] is looked
    up twice (the check, then the name), the output file is
    [catalog[index].name + '.ssd'], and [with open(name, 'wb') as g:
    g.write(disk)] creates or truncates it. *)
Fixpoint ex_loop (catalog : list Disk) (f : handle) (indices : list pyidx)
    (force : bool) : M unit :=
  match indices with
  | [] => ret tt
  | index :: rest =>
      d <- getitem catalog index ;;
      _ <- ensure (is_formatted d) (MsgNoDisk index) ;;
      d' <- getitem catalog index ;;
      let nm := name d' ++ s2py ".ssd" in
      ex <- path_exists nm ;;
      _ <- ensure (negb ex || force) (MsgFileExists nm) ;;
      i <- as_int index ;;
      f <- seek f (8192 + i * 200 * 1024) ;;
      '(disk, f) <- read f (200 * 1024) ;;
      g <- open_wb nm ;;
      _ <- write g disk ;;
      ex_loop catalog f rest force
  end.

(** [action_ex(mmb, indices, force)]; the command line passes a single
    index, which [isinstance] wraps into a one-element list. *)
Definition action_ex (mmb : path) (indices : list pyidx) (force : bool) : M unit :=
  f <- open_existing mmb ;;
  '(catalog, f) <- read_catalog f ;;
  ex_loop catalog f indices force.

(** [STATUS_STR] *)
Definition status_str (s : Status) : pystr :=
  match s with
  | INVALID => s2py "Invalid"
  | READONLY => s2py "RO"
  | READWRITE => s2py "R/W"
  | UNFORMATTED => s2py "Unformatted"
  end.

(** Decimal digits of a non-negative integer below [10 ^ fuel]. *)
Fixpoint dec_digits (fuel : nat) (n : Z) : pystr :=
  match fuel with
  | O => []
  | S fuel' => if n <? 10 then [48 + n]
               else dec_digits fuel' (n / 10) ++ [48 + n mod 10]
  end.

(** [str(n)] for the integers [action_ls] prints (all below [10 ^ 32]). *)
Definition str_int (n : Z) : pystr :=
  if n <? 0 then 45 :: dec_digits 32 (- n) else dec_digits 32 n.

(** [f'{n:03d}'] for [n >= 0]: zero-filled to width 3. *)
Definition fmt03 (n : Z) : pystr :=
  let s := str_int n in repeat 48 (3 - length s) ++ s.

(** [f'{s:12s}']: left-aligned, space-filled to width 12. *)
Definition fmt12s (s : pystr) : pystr := s ++ repeat 32 (12 - length s).

(** [f'{index:03d}: {disk.name:12s} {STATUS_STR[disk.status]}'] *)
Definition ls_line (index : Z) (disk : Disk) : pystr :=
  fmt03 index ++ s2py ": " ++ fmt12s (name disk) ++ [32] ++ status_str (status disk).

(** [" ".join(str(d) for d in mapping)] *)
Fixpoint join_space (l : list pystr) : pystr :=
  match l with
  | [] => []
  | [x] => x
  | x :: r => x ++ [32] ++ join_space r
  end.

(** The loop over [enumerate(catalog)]: the lines printed and the count
    [disks] of formatted entries. *)
Fixpoint ls_loop (show_all : bool) (index : Z) (catalog : list Disk)
    : list pystr * Z :=
  match catalog with
  | [] => ([], 0)
  | disk :: rest =>
      let '(lines, disks) := ls_loop show_all (index + 1) rest in
      ((if show_all || is_formatted disk then [ls_line index disk] else []) ++ lines,
       (if is_formatted disk then 1 else 0) + disks)
  end.

(** [action_ls(mmb, show_all)]: what it prints, line by line, is its
    result. *)
Definition action_ls (mmb : path) (show_all : bool) : M (list pystr) :=
  f <- open_existing mmb ;;
  mapping <- read_mapping f ;;
  '(catalog, _) <- read_catalog f ;;
  let '(lines, disks) := ls_loop show_all 0 catalog in
  ret (lines ++ [str_int disks ++ s2py "/511 disks in use, drive mapping "
                 ++ join_space (map str_int mapping)]).

(* ------------------------------------------------------------------ *)
(** ** Reference descriptions used in the statements *)

(** What [read_catalog] returns on a file whose catalog region is fully
    present: record [i] decoded from its 16 bytes at [16 + i * 16]. *)
Definition record_at (fl : file) (i : Z) : option Disk :=
  match parse_name (file_read fl (16 + i * 16) 12) with
  | Some nm => Some (mkDisk nm (parse_status_byte (f_data fl (16 + i * 16 + 15))))
  | None => None
  end.

Fixpoint records_from (fl : file) (i : Z) (n : nat) : option (list Disk) :=
  match n with
  | O => Some []
  | S n' =>
      match record_at fl i, records_from fl (i + 1) n' with
      | Some d, Some r => Some (d :: r)
      | _, _ => None
      end
  end.

Definition catalog_of (fl : file) : option (list Disk) := records_from fl 0 511.

(** The reads [read_catalog] performs, in order. *)
Fixpoint records_reads (p : path) (i : Z) (n : nat) : list event :=
  match n with
  | O => []
  | S n' => ERead p (16 + i * 16) 12 :: ERead p (16 + i * 16 + 12) 3
            :: ERead p (16 + i * 16 + 15) 1 :: records_reads p (i + 1) n'
  end.

Definition catalog_reads (p : path) : list event := records_reads p 0 511.

(** The status-byte write of [mk_marker st] on slot [i]. *)
Definition mark_event (p : path) (st : Status) (i : Z) : event :=
  EWrite p (16 + i * 16 + 15) (as_status st).

Definition mark_file (st : Status) (fl : file) (i : Z) : file :=
  file_write fl (16 + i * 16 + 15) (as_status st).

(** The four batch commands built on [visit] with a status check and a
    status marker. *)
Inductive batch_op := BatchRm | BatchUn | BatchRo | BatchRw.

Definition batch_action (op : batch_op) : path -> list pyidx -> M unit :=
  match op with
  | BatchRm => action_rm | BatchUn => action_un
  | BatchRo => action_ro | BatchRw => action_rw
  end.

Definition batch_expect (op : batch_op) : Status :=
  match op with
  | BatchRm => READWRITE | BatchUn => UNFORMATTED
  | BatchRo => READWRITE | BatchRw => READONLY
  end.

Definition batch_mark (op : batch_op) : Status :=
  match op with
  | BatchRm => UNFORMATTED | BatchUn => READWRITE
  | BatchRo => READONLY | BatchRw => READWRITE
  end.

(** A batch checked against one catalog snapshot: the indices accepted
    before the first rejected one, and the error of that one. *)
Fixpoint batch_plan (catalog : list Disk) (expect : Status) (indices : list pyidx)
    : list Z * option pyerr :=
  match indices with
  | [] => ([], None)
  | PValueError _ :: _ => ([], Some TypeError)
  | PInt i :: rest =>
      if (0 <=? i) && (i <? 511) then
        let st := status (nth (Z.to_nat i) catalog dflt_disk) in
        if Status_eqb st expect then
          let (ok, e) := batch_plan catalog expect rest in (i :: ok, e)
        else ([], Some (Oops (MsgDiskIs (PInt i) st)))
      else ([], Some IndexError)
  end.

Definition res_of (e : option pyerr) : res unit :=
  match e with None => Ok tt | Some e => Err e end.

(** The file the status loop of [action_nw] leaves. *)
Fixpoint nw_status_file (fl : file) (index : Z) (n : nat) : file :=
  match n with
  | O => fl
  | S n' => nw_status_file (file_write fl (16 + index * 16 + 15) [0xF0]) (index + 1) n'
  end.

(** The whole file [action_nw] writes, starting from the truncated file. *)
Definition nw_file : file :=
  file_write
    (nw_status_file
       (file_write (file_write empty_file 0 [0x00; 0x01; 0x02; 0x03; 0x00; 0x00; 0x00; 0x00])
                   8 [0x00; 0x00; 0x00; 0x00; 0x00; 0x00; 0x00; 0x00])
       0 511)
    (8192 + 511 * 200 * 1024 - 1) [0x00].

(* ------------------------------------------------------------------ *)
(** ** Concrete containers *)

Definition BEEB : path := s2py "BEEB.MMB".

(** A full-length container with all-zero names and headers and status
    byte [st i] for slot [i]. *)
Definition demo_container (st : Z -> Z) : file :=
  mkFile CONTAINER_SIZE
    (fun a => if (16 <=? a) && (a <? 8192) && ((a - 16) mod 16 =? 15)
              then st ((a - 16) / 16) else 0).

Definition demo_world (fl : file) : world :=
  mkWorld (fs_set (fun _ => None) BEEB (Some fl)) [].

Definition catalog_or_nil (fl : file) : list Disk :=
  match catalog_of fl with Some c => c | None => [] end.

(** Slot 5 Locked, slot 6 Unlocked, the rest Empty. *)
Definition demo_locked5 : file :=
  demo_container (fun i => if i =? 5 then 0x00 else if i =? 6 then 0x0F else 0xF0).

Definition GAME : path := s2py "GAME.ssd".

(** An SSD image of [n] bytes, all [0xE5]. *)
Definition ssd_file (n : Z) : file :=
  mkFile n (fun a => if (0 <=? a) && (a <? n) then 0xE5 else 0).

Definition demo_world_with (fl src : file) : world :=
  mkWorld (fs_set (fs_set (fun _ => None) BEEB (Some fl)) GAME (Some src)) [].

(** Every slot Unlocked. *)
Definition demo_full : file := demo_container (fun _ => 0x0F).

(** A computation that never raises one of import's two size errors. *)
Definition no_size_error {A} (m : M A) : Prop :=
  forall w, match fst (m w) with
            | Err (Oops MsgSsdEmpty) | Err (Oops MsgSsdTooLarge) => False
            | _ => True
            end.

(** Every slot Empty, as [nw] leaves the catalog. *)
Definition demo_empty : file := demo_container (fun _ => 0xF0).

(** The file [p] after the writes to it in [evs], applied in order to
    [fl]: on a prefix of a trace, what a crash at that point leaves. *)
Fixpoint replay_writes (p : path) (fl : file) (evs : list event) : file :=
  match evs with
  | [] => fl
  | EWrite q off bs :: rest =>
      replay_writes p (if path_eqb q p then file_write fl off bs else fl) rest
  | _ :: rest => replay_writes p fl rest
  end.

(** The eight bytes [action_dd] writes for drive numbers [d0..d3]. *)
Definition dd_bytes (d0 d1 d2 d3 : Z) : pybytes :=
  [Z.land d0 255; Z.land d1 255; Z.land d2 255; Z.land d3 255;
   d0 / 256; d1 / 256; d2 / 256; d3 / 256].

(** Two positions of the argument list hold the same integer. *)
Definition dd_dup (ds : list pyidx) : Prop :=
  exists i j x, (i < j)%nat /\ nth_error ds i = Some (PInt x) /\ nth_error ds j = Some (PInt x).

(** The summary line [ls] prints for a fresh container. *)
Definition ls_summary_fresh : pystr := s2py "0/511 disks in use, drive mapping 0 1 2 3".

(* ================================================================== *)
(** * Proofs *)

(* ------------------------------------------------------------------ *)
(** ** UTF-8 and the name field *)

Ltac zcase :=
  repeat match goal with
  | |- context [?a =? ?b] => destruct (Z.eqb_spec a b); try (exfalso; lia)
  | |- context [?a <? ?b] => destruct (Z.ltb_spec a b); try (exfalso; lia)
  | |- context [?a <=? ?b] => destruct (Z.leb_spec a b); try (exfalso; lia)
  end; cbv beta iota delta [andb orb].

Definition valid_code_point (c : Z) : Prop :=
  0 <= c <= 0x10FFFF /\ is_surrogate c = false.

Lemma utf8_char_roundtrip (c : Z) :
  valid_code_point c ->
  exists b, utf8_encode_char c = Some b /\
    (forall rest, utf8_decode (b ++ rest) = option_map (cons c) (utf8_decode rest)) /\
    (exists b0 bl, b = b0 ++ [bl] /\ (c < 0x80 -> bl = c) /\ (0x80 <= c -> 0x80 <= bl)).
Proof.
  intros [Hc Hs]. unfold utf8_encode_char.
  destruct (Z.ltb_spec c 0x80).
  { eexists; split; [reflexivity|]. split.
    - intro rest. simpl. destruct (Z.ltb_spec c 0x80); [reflexivity | lia].
    - exists [], c. split; [reflexivity | split; intros; lia]. }
  destruct (Z.ltb_spec c 0x800).
  { eexists; split; [reflexivity|]. split.
    - intro rest. cbn [utf8_decode app option_map].
      unfold is_cont. Z.div_mod_to_equations. zcase;
      f_equal; f_equal; lia.
    - exists [0xC0 + c / 64], (0x80 + c mod 64).
      split; [reflexivity|]. split; intros; [lia|].
      pose proof (Z.mod_pos_bound c 64). lia. }
  rewrite Hs. unfold is_surrogate in Hs.
  destruct (Z.ltb_spec c 0x10000).
  { eexists; split; [reflexivity|]. split.
    - intro rest. cbn [utf8_decode app option_map]. unfold is_cont.
      destruct (Z.leb_spec 0xD800 c), (Z.leb_spec c 0xDFFF); simpl in Hs;
        try discriminate;
      Z.div_mod_to_equations; zcase; f_equal; f_equal; lia.
    - exists [0xE0 + c / 4096; 0x80 + (c / 64) mod 64], (0x80 + c mod 64).
      split; [reflexivity|]. split; intros; [lia|].
      pose proof (Z.mod_pos_bound c 64). lia. }
  eexists; split; [reflexivity|]. split.
  - intro rest. cbn [utf8_decode app option_map]. unfold is_cont.
    Z.div_mod_to_equations; zcase; f_equal; f_equal; lia.
  - exists [0xF0 + c / 262144; 0x80 + (c / 4096) mod 64; 0x80 + (c / 64) mod 64],
      (0x80 + c mod 64).
    split; [reflexivity|]. split; intros; [lia|].
    pose proof (Z.mod_pos_bound c 64). lia.
Qed.

Lemma utf8_encode_app (a b : pystr) :
  utf8_encode (a ++ b) =
  match utf8_encode a, utf8_encode b with
  | Some x, Some y => Some (x ++ y)
  | _, _ => None
  end.
Proof.
  induction a as [|c a IH]; simpl.
  - destruct (utf8_encode b); reflexivity.
  - rewrite IH. destruct (utf8_encode_char c), (utf8_encode a), (utf8_encode b);
      try reflexivity. rewrite app_assoc. reflexivity.
Qed.

Lemma utf8_roundtrip (s : pystr) :
  Forall valid_code_point s ->
  exists e, utf8_encode s = Some e /\
    forall rest, utf8_decode (e ++ rest) = option_map (app s) (utf8_decode rest).
Proof.
  induction 1 as [|c s Hc Hs IH].
  - exists []. split; [reflexivity|]. intro rest. simpl.
    destruct (utf8_decode rest); reflexivity.
  - destruct IH as [e [He Hd]].
    destruct (utf8_char_roundtrip c Hc) as [b [Hb [Hbd _]]].
    exists (b ++ e). simpl. rewrite Hb, He. split; [reflexivity|].
    intro rest. rewrite <- app_assoc, Hbd, Hd.
    destruct (utf8_decode rest); reflexivity.
Qed.

Lemma utf8_encode_zeros (k : nat) : utf8_encode (repeat 0 k) = Some (repeat 0 k).
Proof. induction k as [|k IH]; simpl; [reflexivity|]. rewrite IH. reflexivity. Qed.

Lemma rev_repeat_Z (k : nat) (x : Z) : rev (repeat x k) = repeat x k.
Proof.
  induction k as [|k IH]; [reflexivity|].
  simpl. rewrite IH. change [x] with (repeat x 1).
  rewrite <- repeat_app, Nat.add_comm. reflexivity.
Qed.

Lemma rstrip_app_zeros (e : pybytes) (k : nat) :
  rstrip (e ++ repeat 0 k) = rstrip e.
Proof.
  unfold rstrip. rewrite rev_app_distr, rev_repeat_Z.
  induction k as [|k IH]; [reflexivity|]. exact IH.
Qed.

Lemma rstrip_keep (e0 : pybytes) (bl : Z) :
  in_strip_set bl = false -> rstrip (e0 ++ [bl]) = e0 ++ [bl].
Proof.
  intro H. unfold rstrip. rewrite rev_app_distr. simpl. rewrite H.
  change (bl :: rev e0) with (rev [bl] ++ rev e0).
  rewrite <- rev_app_distr, rev_involutive. reflexivity.
Qed.

Lemma utf8_encode_spaces (k : nat) : utf8_encode (repeat 32 k) = Some (repeat 32 k).
Proof. induction k as [|k IH]; simpl; [reflexivity|]. rewrite IH. reflexivity. Qed.

Lemma rstrip_app_spaces (e : pybytes) (k : nat) :
  rstrip (e ++ repeat 32 k) = rstrip e.
Proof.
  unfold rstrip. rewrite rev_app_distr, rev_repeat_Z.
  induction k as [|k IH]; [reflexivity|]. exact IH.
Qed.

(** A name [s] followed by [k] spaces, [s] not ending in a space, decodes
    back to [s]. *)
Lemma name_roundtrip_spaces (s : pystr) (k : nat) :
  (length s + k <= 12)%nat ->
  Forall valid_code_point s ->
  Forall (fun c => c <> 0 /\ c <> 9 /\ c <> 10 /\ c <> 13) s ->
  last s 0 <> 32 ->
  match as_name (s ++ repeat 32 k) with Some b => parse_name b | None => None end = Some s.
Proof.
  intros Hlen Hvalid Hctl Hsp.
  unfold as_name. rewrite firstn_all2 by (rewrite length_app, repeat_length; lia).
  destruct (utf8_roundtrip s Hvalid) as [e [He Hd]].
  set (m := Z.to_nat _).
  rewrite utf8_encode_app, utf8_encode_app, He, utf8_encode_spaces, utf8_encode_zeros.
  unfold parse_name. rewrite rstrip_app_zeros, rstrip_app_spaces.
  assert (Hr : rstrip e = e).
  { destruct s as [|c0 s0] eqn:Es.
    - cbn in He. injection He as <-. reflexivity.
    - rewrite <- Es in *.
      assert (Hne : s <> []) by (rewrite Es; discriminate).
      destruct (exists_last Hne) as [s' [c Hsc]]. rewrite Hsc in *.
      rewrite last_last in Hsp.
      apply Forall_app in Hvalid as [Hv' Hvc]. inversion Hvc as [|? ? Hc _]; subst.
      apply Forall_app in Hctl as [_ Hcc].
      inversion Hcc as [|? ? [H0 [H9 [H10 H13]]] _]; subst.
      destruct (utf8_roundtrip s' Hv') as [e' [He' _]].
      destruct (utf8_char_roundtrip c Hc) as [b [Hb [_ [b0 [bl [Hbb [Hlo Hhi]]]]]]].
      rewrite utf8_encode_app, He' in He. cbn [utf8_encode] in He. rewrite Hb in He.
      injection He as <-. rewrite app_nil_r, Hbb, app_assoc, rstrip_keep; [reflexivity|].
      unfold in_strip_set.
      destruct (Z.ltb_spec c 0x80) as [Hl|Hl].
      + rewrite (Hlo Hl).
        repeat match goal with |- context [?a =? ?b] => destruct (Z.eqb_spec a b) end;
          simpl; congruence.
      + specialize (Hhi Hl).
        repeat match goal with |- context [?a =? ?b] => destruct (Z.eqb_spec a b) end;
          simpl; try reflexivity; lia. }
  rewrite Hr. specialize (Hd []). rewrite app_nil_r in Hd. rewrite Hd.
  cbn. rewrite app_nil_r. reflexivity.
Qed.

(** Claim C6, as amended: for every name of at most 12 code points, all of
    them encodable (no surrogates), with no null, tab, newline or carriage
    return, and not ending in a space, [parse_name] of [as_name] gives the
    name back; and every such name followed by one or more spaces (at most
    12 code points in all) comes back without those trailing spaces, so
    not unchanged. *)
Theorem parse_name_as_name :
  (forall s : pystr,
     (length s <= 12)%nat ->
     Forall valid_code_point s ->
     Forall (fun c => c <> 0 /\ c <> 9 /\ c <> 10 /\ c <> 13) s ->
     last s 0 <> 32 ->
     match as_name s with Some b => parse_name b | None => None end = Some s) /\
  (forall (s : pystr) (k : nat),
     (length s + k <= 12)%nat -> (0 < k)%nat ->
     Forall valid_code_point s ->
     Forall (fun c => c <> 0 /\ c <> 9 /\ c <> 10 /\ c <> 13) s ->
     last s 0 <> 32 ->
     match as_name (s ++ repeat 32 k) with Some b => parse_name b | None => None end = Some s /\
     match as_name (s ++ repeat 32 k) with Some b => parse_name b | None => None end
       <> Some (s ++ repeat 32 k)).
Proof.
  split.
  - intros s Hlen Hvalid Hctl Hsp.
    pose proof (name_roundtrip_spaces s 0 ltac:(lia) Hvalid Hctl Hsp) as H.
    rewrite app_nil_r in H. exact H.
  - intros s k Hlen Hk Hvalid Hctl Hsp.
    rewrite (name_roundtrip_spaces s k Hlen Hvalid Hctl Hsp). split; [reflexivity|].
    intro E. injection E as E.
    apply (f_equal (@length Z)) in E. rewrite length_app, repeat_length in E. lia.
Qed.

(** Claim C6, counterexample: the name ["A "] has no null, tab, newline or
    carriage return, yet the trailing space is stripped by [parse_name]. *)
Lemma parse_name_as_name_trailing_space :
  let s := s2py "A "%string in
  (length s <= 12)%nat /\
  Forall (fun c => c <> 0 /\ c <> 9 /\ c <> 10 /\ c <> 13) s /\
  match as_name s with Some b => parse_name b | None => None end = Some [65] /\
  match as_name s with Some b => parse_name b | None => None end <> Some s.
Proof.
  simpl. split; [lia|]. split.
  - repeat constructor; lia.
  - split; [reflexivity|]. vm_compute. discriminate.
Qed.

(** Claim C6, witness: the hypotheses hold for the name ["GAME"]. *)
Lemma parse_name_as_name_witness :
  match as_name (s2py "GAME") with Some b => parse_name b | None => None end
  = Some (s2py "GAME") /\
  match as_name (s2py "GAME" ++ repeat 32 2) with Some b => parse_name b | None => None end
  = Some (s2py "GAME").
Proof.
  destruct parse_name_as_name as [H1 H2]. split.
  - apply H1; cbn [s2py Ascii.nat_of_ascii].
    + vm_compute. lia.
    + repeat constructor; vm_compute; congruence.
    + repeat constructor; vm_compute; congruence.
    + vm_compute. discriminate.
  - apply H2; cbn [s2py Ascii.nat_of_ascii].
    + vm_compute. lia.
    + lia.
    + repeat constructor; vm_compute; congruence.
    + repeat constructor; vm_compute; congruence.
    + vm_compute. discriminate.
Defined.

(* ------------------------------------------------------------------ *)
(** ** Running the monad *)

Lemma bind_ok {A B} (m : M A) (k : A -> M B) w a w' :
  m w = (Ok a, w') -> bind m k w = k a w'.
Proof. intro H. unfold bind. rewrite H. reflexivity. Qed.

Lemma bind_err {A B} (m : M A) (k : A -> M B) w e w' :
  m w = (Err e, w') -> bind m k w = (Err e, w').
Proof. intro H. unfold bind. rewrite H. reflexivity. Qed.

Lemma bind_assoc_w {A B C} (m : M A) (k : A -> M B) (k' : B -> M C) w :
  bind (bind m k) k' w = bind m (fun a => bind (k a) k') w.
Proof. unfold bind. destruct (m w) as [[a|e] w']; reflexivity. Qed.

(** Run the first action of a [bind] whose result [tac] establishes. *)
Ltac step tac := erewrite bind_ok by tac; cbv beta iota.

Lemma path_eqb_refl (p : path) : path_eqb p p = true.
Proof. unfold path_eqb. destruct (list_eq_dec Z.eq_dec p p); congruence. Qed.

Lemma path_eqb_neq (p q : path) : q <> p -> path_eqb q p = false.
Proof. unfold path_eqb. destruct (list_eq_dec Z.eq_dec q p); congruence. Qed.

Lemma fs_set_eq f p v : fs_set f p v p = v.
Proof. unfold fs_set. rewrite path_eqb_refl. reflexivity. Qed.

Lemma fs_set_neq f p q v : q <> p -> fs_set f p v q = f q.
Proof. intro H. unfold fs_set. rewrite path_eqb_neq by exact H. reflexivity. Qed.

Lemma fs_set_set f p v v' : fs_set (fs_set f p v) p v' = fs_set f p v'.
Proof.
  extensionality q. unfold fs_set. destruct (path_eqb q p); reflexivity.
Qed.

Lemma fs_set_id f p : fs_set f p (f p) = f.
Proof.
  extensionality q. unfold fs_set.
  destruct (list_eq_dec Z.eq_dec q p) as [->|Hne].
  - rewrite path_eqb_refl. reflexivity.
  - rewrite path_eqb_neq by exact Hne. reflexivity.
Qed.

Lemma world_eta w : mkWorld (fs w) (trace w) = w.
Proof. destruct w; reflexivity. Qed.

Lemma run_seek (h : handle) (off : Z) w :
  0 <= off -> seek h off w = (Ok (mkHandle (h_path h) off), w).
Proof.
  intro H. unfold seek. destruct (Z.ltb_spec off 0); [lia|reflexivity].
Qed.

Lemma run_write (h : handle) (bs : pybytes) w fl :
  fs w (h_path h) = Some fl ->
  write h bs w =
  (Ok (mkHandle (h_path h) (h_pos h + Z.of_nat (length bs))),
   mkWorld (fs_set (fs w) (h_path h) (Some (file_write fl (h_pos h) bs)))
           (trace w ++ [EWrite (h_path h) (h_pos h) bs])).
Proof. intro H. unfold write. rewrite H. reflexivity. Qed.

Lemma file_read_length fl off n :
  0 <= n -> off + n <= f_len fl -> length (file_read fl off n) = Z.to_nat n.
Proof.
  intros H1 H2. unfold file_read, read_count.
  rewrite length_map, length_seq. f_equal. lia.
Qed.

Lemma run_read (p : path) (off n : Z) w fl :
  fs w p = Some fl -> 0 <= n -> off + n <= f_len fl ->
  read (mkHandle p off) n w =
  (Ok (file_read fl off n, mkHandle p (off + n)),
   mkWorld (fs w) (trace w ++ [ERead p off n])).
Proof.
  intros H H1 H2. unfold read. simpl. rewrite H.
  rewrite file_read_length by assumption. rewrite Z2Nat.id by lia.
  reflexivity.
Qed.

Lemma file_read_one fl off :
  0 <= off -> off + 1 <= f_len fl -> file_read fl off 1 = [f_data fl off].
Proof.
  intros H1 H2. unfold file_read, read_count.
  replace (Z.to_nat (Z.min 1 (f_len fl - off))) with 1%nat by lia.
  simpl. rewrite Z.add_0_r. reflexivity.
Qed.

Lemma read_records_ok (p : path) (fl : file) (n : nat) :
  forall i w cat,
  fs w p = Some fl -> 0 <= i -> 16 + (i + Z.of_nat n) * 16 <= f_len fl ->
  records_from fl i n = Some cat ->
  read_records (mkHandle p (16 + i * 16)) n w =
  (Ok (cat, mkHandle p (16 + (i + Z.of_nat n) * 16)),
   mkWorld (fs w) (trace w ++ records_reads p i n)).
Proof.
  induction n as [|n IH]; intros i w cat Hfs Hi Hlen Hrec.
  - simpl in Hrec. injection Hrec as <-. simpl.
    rewrite app_nil_r, world_eta, Z.add_0_r. reflexivity.
  - cbn [records_from] in Hrec. unfold record_at in Hrec.
    destruct (parse_name (file_read fl (16 + i * 16) 12)) as [nm|] eqn:Hnm;
      [|discriminate].
    destruct (records_from fl (i + 1) n) as [rest|] eqn:Hrest; [|discriminate].
    injection Hrec as <-.
    cbn [read_records].
    step ltac:(apply run_read; [exact Hfs | lia | lia]).
    cbn [lift]. rewrite Hnm.
    step reflexivity.
    step ltac:(apply run_read; [exact Hfs | lia | lia]).
    step ltac:(apply run_read; [exact Hfs | lia | lia]).
    rewrite file_read_one by lia.
    step reflexivity.
    replace (16 + i * 16 + 12 + 3 + 1) with (16 + (i + 1) * 16) by lia.
    step ltac:(apply IH; [exact Hfs | lia | lia | exact Hrest]).
    unfold ret. cbn [fs trace records_reads]. repeat rewrite <- app_assoc.
    replace (i + 1 + Z.of_nat n) with (i + Z.of_nat (S n)) by lia.
    replace (16 + i * 16 + 12 + 3) with (16 + i * 16 + 15) by lia.
    reflexivity.
Qed.

Lemma run_read_catalog (p : path) (fl : file) (cat : list Disk) w pos :
  fs w p = Some fl -> 8192 <= f_len fl -> catalog_of fl = Some cat ->
  read_catalog (mkHandle p pos) w =
  (Ok (cat, mkHandle p (16 + 511 * 16)),
   mkWorld (fs w) (trace w ++ catalog_reads p)).
Proof.
  intros Hfs Hlen Hcat. unfold read_catalog.
  step ltac:(apply run_seek; lia). cbn [h_path].
  change (mkHandle p 16) with (mkHandle p (16 + 0 * 16)).
  apply (read_records_ok p fl); [exact Hfs | lia | simpl; lia | exact Hcat].
Qed.

Lemma records_from_length fl n : forall i cat,
  records_from fl i n = Some cat -> length cat = n.
Proof.
  induction n as [|n IH]; intros i cat H; cbn [records_from] in H.
  - injection H as <-. reflexivity.
  - destruct (record_at fl i), (records_from fl (i + 1) n) eqn:E; try discriminate.
    injection H as <-. simpl. f_equal. eapply IH. exact E.
Qed.

Lemma records_from_nth fl n : forall i cat k,
  records_from fl i n = Some cat -> (k < n)%nat ->
  record_at fl (i + Z.of_nat k) = Some (nth k cat dflt_disk).
Proof.
  induction n as [|n IH]; intros i cat k H Hk; [lia|].
  cbn [records_from] in H.
  destruct (record_at fl i) eqn:Ed, (records_from fl (i + 1) n) eqn:E;
    try discriminate.
  injection H as <-. destruct k as [|k].
  - simpl. rewrite Z.add_0_r. exact Ed.
  - replace (i + Z.of_nat (S k)) with (i + 1 + Z.of_nat k) by lia.
    cbn [nth]. apply IH; [exact E | lia].
Qed.

Lemma catalog_length fl cat : catalog_of fl = Some cat -> length cat = 511%nat.
Proof. apply records_from_length. Qed.

Lemma catalog_nth fl cat (j : Z) :
  catalog_of fl = Some cat -> 0 <= j < 511 ->
  record_at fl j = Some (nth (Z.to_nat j) cat dflt_disk).
Proof.
  intros H Hj. replace j with (0 + Z.of_nat (Z.to_nat j)) at 1 by lia.
  eapply records_from_nth; [exact H | lia].
Qed.

Lemma catalog_status fl cat (j : Z) :
  catalog_of fl = Some cat -> 0 <= j < 511 ->
  status (nth (Z.to_nat j) cat dflt_disk) = parse_status_byte (f_data fl (16 + j * 16 + 15)).
Proof.
  intros H Hj. pose proof (catalog_nth fl cat j H Hj) as E.
  unfold record_at in E. destruct (parse_name _); [|discriminate].
  injection E as <-. reflexivity.
Qed.

(** [index] never yields a negative int. *)
Definition index_shaped (x : pyidx) : Prop :=
  match x with PInt i => 0 <= i | PValueError _ => True end.

Lemma index_shaped_index (z : Z) : index_shaped (index z).
Proof.
  unfold index, index_shaped.
  destruct (Z.leb_spec 0 z), (Z.leb_spec z 511); simpl; auto.
Qed.

Lemma run_mark (mmb : path) (st : Status) (i : Z) w fl :
  fs w mmb = Some fl -> 0 <= i ->
  mk_marker st (mkHandle mmb (16 + i * 16)) w =
  (Ok (mkHandle mmb (16 + i * 16 + 15 + 1)),
   mkWorld (fs_set (fs w) mmb (Some (mark_file st fl i)))
           (trace w ++ [mark_event mmb st i])).
Proof.
  intros Hfs Hi. unfold mk_marker.
  step ltac:(apply run_seek; cbn [h_pos]; lia). cbn [h_path h_pos].
  rewrite (run_write (mkHandle mmb (16 + i * 16 + 15)) _ w fl Hfs).
  cbn [h_path h_pos]. destruct st; reflexivity.
Qed.

Lemma visit_loop_batch (mmb : path) (cat : list Disk) (expect mark : Status) :
  length cat = 511%nat ->
  forall indices fl h w,
  fs w mmb = Some fl -> h_path h = mmb -> Forall index_shaped indices ->
  visit_loop cat h indices (Some (mk_ensurer expect)) (mk_marker mark) w =
  (res_of (snd (batch_plan cat expect indices)),
   mkWorld (fs_set (fs w) mmb
              (Some (fold_left (mark_file mark) (fst (batch_plan cat expect indices)) fl)))
           (trace w ++ map (mark_event mmb mark) (fst (batch_plan cat expect indices)))).
Proof.
  intros Hlen indices. induction indices as [|x rest IH];
    intros fl h w Hfs Hh Hshape.
  - simpl. rewrite <- Hfs, fs_set_id, app_nil_r, world_eta. reflexivity.
  - inversion Hshape as [|? ? Hx Hrest]; subst.
    assert (Hstop : forall e,
      (Err e, w) = (res_of (Some e),
                    mkWorld (fs_set (fs w) (h_path h)
                               (Some (fold_left (mark_file mark) [] fl)))
                            (trace w ++ map (mark_event (h_path h) mark) []))).
    { intro e. simpl. rewrite <- Hfs, fs_set_id, app_nil_r, world_eta. reflexivity. }
    destruct x as [i|s]; cbn [visit_loop batch_plan].
    2: { unfold bind at 1, bind at 1. apply Hstop. }
    simpl in Hx.
    destruct (Z.ltb_spec i 511) as [Hi|Hi].
    2: { rewrite Bool.andb_false_r.
         unfold bind at 1, bind at 1, getitem. rewrite Hlen.
         destruct (Z.leb_spec 0 i), (Z.ltb_spec i (Z.of_nat 511)); try lia.
         destruct (Z.leb_spec (- Z.of_nat 511) i), (Z.ltb_spec i 0); try lia;
           apply Hstop. }
    destruct (Z.leb_spec 0 i); [|lia]. cbn [andb].
    rewrite bind_assoc_w.
    step ltac:(unfold getitem; rewrite Hlen;
               destruct (Z.leb_spec 0 i), (Z.ltb_spec i (Z.of_nat 511)); try lia;
               reflexivity).
    unfold mk_ensurer, ensure.
    destruct (Status_eqb (status (nth (Z.to_nat i) cat dflt_disk)) expect).
    2: { unfold bind at 1, bind at 1. apply Hstop. }
    step reflexivity. step reflexivity.
    step ltac:(apply run_seek; lia).
    step ltac:(apply run_mark; [exact Hfs | lia]).
    destruct (batch_plan cat expect rest) as [ok e] eqn:Eplan.
    rewrite IH with (fl := mark_file mark fl i); cbn [fs trace h_path];
      [| rewrite fs_set_eq; reflexivity | reflexivity | exact Hrest].
    rewrite ?Eplan. cbn [fst snd fold_left map].
    rewrite fs_set_set, <- app_assoc. reflexivity.
Qed.

Lemma run_open_existing (p : path) w fl :
  fs w p = Some fl -> open_existing p w = (Ok (mkHandle p 0), w).
Proof. intro H. unfold open_existing. rewrite H. reflexivity. Qed.

Lemma visit_batch (mmb : path) (indices : list pyidx) (expect mark : Status) w fl cat :
  fs w mmb = Some fl -> 8192 <= f_len fl -> catalog_of fl = Some cat ->
  Forall index_shaped indices ->
  visit mmb indices (Some (mk_ensurer expect)) (mk_marker mark) w =
  (res_of (snd (batch_plan cat expect indices)),
   mkWorld (fs_set (fs w) mmb
              (Some (fold_left (mark_file mark) (fst (batch_plan cat expect indices)) fl)))
           (trace w ++ catalog_reads mmb
                    ++ map (mark_event mmb mark) (fst (batch_plan cat expect indices)))).
Proof.
  intros Hfs Hlen Hcat Hshape. unfold visit.
  step ltac:(apply (run_open_existing mmb w fl Hfs)).
  step ltac:(apply (run_read_catalog mmb fl cat); assumption).
  rewrite (visit_loop_batch mmb cat expect mark (catalog_length fl cat Hcat)
             indices fl); [| exact Hfs | reflexivity | exact Hshape].
  cbn [fs trace]. rewrite <- app_assoc. reflexivity.
Qed.

Lemma Forall_index_shaped (zs : list Z) : Forall index_shaped (map index zs).
Proof. induction zs; constructor; auto using index_shaped_index. Qed.

Lemma index_in_range (i : Z) : 0 <= i < 511 -> index i = PInt i.
Proof.
  intro H. unfold index.
  destruct (Z.leb_spec 0 i), (Z.leb_spec i 511); simpl; try lia; reflexivity.
Qed.

(** Claim C10, as amended: delete, lock, unlock and undelete read the
    catalog once, check every index of the batch against that snapshot,
    write the status bytes of the accepted indices in order, and stop at
    the first rejected index with no write for it or any later index.
    In particular a delete batch naming the same Unlocked slot twice
    succeeds. *)
Theorem batch_snapshot_semantics (op : batch_op) (mmb : path) (zs : list Z)
    (w : world) (fl : file) (cat : list Disk) :
  fs w mmb = Some fl -> 8192 <= f_len fl -> catalog_of fl = Some cat ->
  (let plan := batch_plan cat (batch_expect op) (map index zs) in
   batch_action op mmb (map index zs) w =
   (res_of (snd plan),
    mkWorld (fs_set (fs w) mmb
               (Some (fold_left (mark_file (batch_mark op)) (fst plan) fl)))
            (trace w ++ catalog_reads mmb
                     ++ map (mark_event mmb (batch_mark op)) (fst plan)))) /\
  (forall i, 0 <= i < 511 ->
   parse_status_byte (f_data fl (16 + i * 16 + 15)) = READWRITE ->
   fst (action_rm mmb [index i; index i] w) = Ok tt).
Proof.
  intros Hfs Hlen Hcat. split.
  - destruct op; apply visit_batch; auto using Forall_index_shaped.
  - intros i Hi Hst. unfold action_rm.
    rewrite (visit_batch mmb _ READWRITE UNFORMATTED w fl cat Hfs Hlen Hcat)
      by (repeat constructor; apply index_shaped_index).
    rewrite index_in_range by exact Hi. cbn [batch_plan].
    destruct (Z.leb_spec 0 i), (Z.ltb_spec i 511); try lia. cbn [andb].
    rewrite (catalog_status fl cat i Hcat Hi), Hst. reflexivity.
Qed.

(** Claim C10, witness: a batch [rm 6 6 5] on a container with slot 6
    Unlocked and slot 5 Locked. *)
Lemma batch_snapshot_semantics_witness :
  fst (action_rm BEEB [index 6; index 6] (demo_world demo_locked5)) = Ok tt /\
  batch_action BatchRm BEEB (map index [6; 6; 5]) (demo_world demo_locked5) =
  (res_of (Some (Oops (MsgDiskIs (PInt 5) READONLY))),
   mkWorld (fs_set (fs (demo_world demo_locked5)) BEEB
              (Some (fold_left (mark_file UNFORMATTED) [6; 6] demo_locked5)))
           (catalog_reads BEEB ++ map (mark_event BEEB UNFORMATTED) [6; 6])).
Proof.
  destruct (batch_snapshot_semantics BatchRm BEEB [6; 6; 5] (demo_world demo_locked5)
              demo_locked5 (catalog_or_nil demo_locked5)) as [H1 H2].
  - reflexivity.
  - vm_compute. discriminate.
  - vm_compute. reflexivity.
  - split.
    + apply H2; [lia | vm_compute; reflexivity].
    + rewrite H1. vm_compute. reflexivity.
Defined.

(** Claim C10, counterexample: a delete batch naming the same in-use slot
    twice fails when that slot is Locked (slot 5 of [demo_locked5]). *)
Lemma rm_locked_twice_fails :
  parse_status_byte (f_data demo_locked5 (16 + 5 * 16 + 15)) = READONLY /\
  fst (action_rm BEEB [index 5; index 5] (demo_world demo_locked5)) =
  Err (Oops (MsgDiskIs (PInt 5) READONLY)).
Proof. split; vm_compute; reflexivity. Qed.

Lemma mark_file_len (st : Status) fl i :
  0 <= i < 511 -> 8192 <= f_len fl -> f_len (mark_file st fl i) = f_len fl.
Proof. intros Hi Hl. unfold mark_file. destruct st; cbn [file_write f_len as_status length]; lia. Qed.

Lemma file_write_one_data fl off b a :
  f_data (file_write fl off [b]) a = if a =? off then b else f_data fl a.
Proof.
  cbn [file_write f_data length].
  destruct (Z.eqb_spec a off) as [->|Hne].
  - destruct (Z.leb_spec off off), (Z.ltb_spec off (off + Z.of_nat 1)); try lia.
    rewrite Z.sub_diag. reflexivity.
  - destruct (Z.leb_spec off a), (Z.ltb_spec a (off + Z.of_nat 1)); try lia;
      reflexivity.
Qed.

Lemma mark_file_data (st : Status) fl i a :
  f_data (mark_file st fl i) a =
  if a =? 16 + i * 16 + 15 then hd 0 (as_status st) else f_data fl a.
Proof. unfold mark_file. destruct st; apply file_write_one_data. Qed.

(** Claim C2, as amended: deleting one slot whose status is Unlocked
    succeeds and writes only its status byte, to [0xF0] (Empty): every
    other byte of the container, its name and padding bytes included, is
    unchanged.  Deleting a slot whose status is anything else (Empty,
    Locked or Invalid) fails with [disk i is ...] after the catalog read
    and before any write. *)
Theorem rm_single_slot (mmb : path) (i : Z) (w : world) (fl : file) (cat : list Disk) :
  fs w mmb = Some fl -> 8192 <= f_len fl -> catalog_of fl = Some cat ->
  0 <= i < 511 ->
  (parse_status_byte (f_data fl (16 + i * 16 + 15)) = READWRITE ->
   exists fl',
     action_rm mmb [index i] w =
       (Ok tt, mkWorld (fs_set (fs w) mmb (Some fl'))
                       (trace w ++ catalog_reads mmb
                                ++ [EWrite mmb (16 + i * 16 + 15) [0xF0]])) /\
     f_len fl' = f_len fl /\
     f_data fl' (16 + i * 16 + 15) = 0xF0 /\
     parse_status_byte (f_data fl' (16 + i * 16 + 15)) = UNFORMATTED /\
     (forall a, a <> 16 + i * 16 + 15 -> f_data fl' a = f_data fl a)) /\
  (parse_status_byte (f_data fl (16 + i * 16 + 15)) <> READWRITE ->
   action_rm mmb [index i] w =
     (Err (Oops (MsgDiskIs (PInt i) (parse_status_byte (f_data fl (16 + i * 16 + 15))))),
      mkWorld (fs w) (trace w ++ catalog_reads mmb))).
Proof.
  intros Hfs Hlen Hcat Hi. unfold action_rm.
  rewrite (visit_batch mmb _ READWRITE UNFORMATTED w fl cat Hfs Hlen Hcat)
    by (repeat constructor; apply index_shaped_index).
  rewrite index_in_range by exact Hi. cbn [batch_plan].
  destruct (Z.leb_spec 0 i), (Z.ltb_spec i 511); try lia. cbn [andb].
  rewrite (catalog_status fl cat i Hcat Hi).
  split; intro Hst.
  - rewrite Hst. cbn [Status_eqb fst snd fold_left map res_of].
    exists (mark_file UNFORMATTED fl i). split; [reflexivity|].
    split; [apply mark_file_len; assumption|].
    rewrite !mark_file_data, Z.eqb_refl. split; [reflexivity|].
    split; [reflexivity|].
    intros a Ha. rewrite mark_file_data.
    destruct (Z.eqb_spec a (16 + i * 16 + 15)); [contradiction | reflexivity].
  - destruct (parse_status_byte (f_data fl (16 + i * 16 + 15))) eqn:E;
      try (exfalso; apply Hst; reflexivity);
    cbn [Status_eqb fst snd fold_left map res_of];
    rewrite app_nil_r, <- Hfs, fs_set_id; reflexivity.
Qed.

(** Claim C2, witness: slot 6 of [demo_locked5] is Unlocked. *)
Lemma rm_single_slot_witness :
  exists fl',
    action_rm BEEB [index 6] (demo_world demo_locked5) =
      (Ok tt, mkWorld (fs_set (fs (demo_world demo_locked5)) BEEB (Some fl'))
                      (catalog_reads BEEB ++ [EWrite BEEB (16 + 6 * 16 + 15) [0xF0]])) /\
    f_len fl' = f_len demo_locked5 /\
    f_data fl' (16 + 6 * 16 + 15) = 0xF0 /\
    parse_status_byte (f_data fl' (16 + 6 * 16 + 15)) = UNFORMATTED /\
    (forall a, a <> 16 + 6 * 16 + 15 -> f_data fl' a = f_data demo_locked5 a).
Proof.
  destruct (rm_single_slot BEEB 6 (demo_world demo_locked5) demo_locked5
              (catalog_or_nil demo_locked5)) as [H1 _].
  - reflexivity.
  - vm_compute. discriminate.
  - vm_compute. reflexivity.
  - lia.
  - exact (H1 ltac:(vm_compute; reflexivity)).
Defined.

(** Claim C2, counterexample: deleting slot 5, which is Locked, fails. *)
Lemma rm_locked_slot_fails :
  parse_status_byte (f_data demo_locked5 (16 + 5 * 16 + 15)) = READONLY /\
  fst (action_rm BEEB [index 5] (demo_world demo_locked5)) =
  Err (Oops (MsgDiskIs (PInt 5) READONLY)).
Proof. split; vm_compute; reflexivity. Qed.

Lemma run_nw_statuses (p : path) (n : nat) : forall index pos w fl,
  fs w p = Some fl -> 0 <= index ->
  exists h' tr,
    nw_statuses (mkHandle p pos) index n w =
    (Ok h', mkWorld (fs_set (fs w) p (Some (nw_status_file fl index n))) tr) /\
    h_path h' = p.
Proof.
  induction n as [|n IH]; intros index pos w fl Hfs Hi.
  - exists (mkHandle p pos), (trace w). cbn [nw_status_file nw_statuses].
    rewrite <- Hfs, fs_set_id, world_eta. split; reflexivity.
  - cbn [nw_statuses nw_status_file].
    step ltac:(apply run_seek; lia). cbn [h_path].
    step ltac:(apply (run_write (mkHandle p (16 + index * 16 + 15)) _ w fl Hfs)).
    cbn [h_path h_pos].
    destruct (IH (index + 1) (16 + index * 16 + 15 + Z.of_nat (length [0xF0]))
                (mkWorld (fs_set (fs w) p (Some (file_write fl (16 + index * 16 + 15) [0xF0])))
                         (trace w ++ [EWrite p (16 + index * 16 + 15) [0xF0]]))
                (file_write fl (16 + index * 16 + 15) [0xF0]))
      as [h' [tr [E Hh]]]; [apply fs_set_eq | lia |].
    exists h', tr. rewrite E. cbn [fs]. rewrite fs_set_set. split; [reflexivity | exact Hh].
Qed.

Lemma nw_file_statuses :
  forallb (fun i => f_data nw_file (16 + i * 16 + 15) =? 0xF0) (map Z.of_nat (seq 0 511)) = true.
Proof. vm_compute. reflexivity. Qed.

Lemma nw_file_catalog :
  match catalog_of nw_file with
  | Some cat => (Nat.eqb (length cat) 511) &&
                forallb (fun d => Status_eqb (status d) UNFORMATTED) cat
  | None => false
  end = true.
Proof. vm_compute. reflexivity. Qed.

(** Claim C7: creating a container on a path that does not exist succeeds;
    the file has length [8192 + 511 * 200 * 1024], [read_mapping] gives
    [[0; 1; 2; 3]], every catalog status byte is [0xF0], and the catalog
    reads back as 511 Empty entries. *)
Theorem nw_fresh_container (mmb : path) (force : bool) (w : world) :
  fs w mmb = None ->
  exists fl tr,
    action_nw mmb force w = (Ok tt, mkWorld (fs_set (fs w) mmb (Some fl)) tr) /\
    f_len fl = 8192 + 511 * 200 * 1024 /\
    fst (read_mapping (mkHandle mmb 0) (mkWorld (fs_set (fs w) mmb (Some fl)) tr))
      = Ok [0; 1; 2; 3] /\
    (forall i, 0 <= i < 511 ->
       f_data fl (16 + i * 16 + 15) = 0xF0 /\
       parse_status_byte (f_data fl (16 + i * 16 + 15)) = UNFORMATTED) /\
    (exists cat, catalog_of fl = Some cat /\ length cat = 511%nat /\
       Forall (fun d => status d = UNFORMATTED) cat).
Proof.
  intro Hnone. unfold action_nw.
  step ltac:(unfold path_exists; rewrite Hnone; reflexivity).
  step ltac:(destruct force; reflexivity).
  step reflexivity. cbn [fs trace].
  step ltac:(apply (run_write (mkHandle mmb 0)); cbn [h_path fs]; apply fs_set_eq).
  cbn [h_path h_pos fs trace]. rewrite fs_set_set.
  step ltac:(apply (run_write (mkHandle mmb _)); cbn [h_path fs]; apply fs_set_eq).
  cbn [h_path h_pos fs trace]. rewrite fs_set_set.
  match goal with
  | |- context [bind (nw_statuses ?h 0 511) _ ?w1] =>
      destruct (run_nw_statuses mmb 511 0 (h_pos h) w1 _ ltac:(apply fs_set_eq) ltac:(lia))
        as [h' [tr1 [E Hh]]]
  end.
  step ltac:(exact E). cbn [fs]. rewrite fs_set_set.
  step ltac:(apply run_seek; lia).
  step ltac:(apply (run_write (mkHandle (h_path h') _)); cbn [h_path fs]; rewrite Hh;
             apply fs_set_eq).
  cbn [fs h_path]. rewrite Hh, fs_set_set. unfold ret.
  eexists nw_file, _. split; [reflexivity|].
  split; [vm_compute; reflexivity|].
  split.
  - unfold read_mapping.
    step ltac:(apply run_seek; lia). cbn [h_path].
    step ltac:(apply (run_read mmb 0 8 _ nw_file); [apply fs_set_eq | lia | vm_compute; discriminate]).
    vm_compute. reflexivity.
  - split.
    + intros i Hi. pose proof nw_file_statuses as H.
      rewrite forallb_forall in H.
      assert (Hin : In i (map Z.of_nat (seq 0 511))).
      { apply in_map_iff. exists (Z.to_nat i). split; [lia|]. apply in_seq. lia. }
      specialize (H i Hin). apply Z.eqb_eq in H. rewrite H. split; reflexivity.
    + pose proof nw_file_catalog as H.
      destruct (catalog_of nw_file) as [cat|]; [|discriminate].
      apply andb_prop in H as [H1 H2]. exists cat. split; [reflexivity|].
      split; [apply Nat.eqb_eq; exact H1|].
      rewrite forallb_forall in H2. apply Forall_forall. intros d Hd.
      specialize (H2 d Hd). destruct (status d); simpl in H2; congruence.
Qed.

(** Claim C7, witness: creating [BEEB.MMB] where no file exists. *)
Lemma nw_fresh_container_witness :
  fs (mkWorld (fun _ => None) []) BEEB = None /\
  exists fl tr,
    action_nw BEEB false (mkWorld (fun _ => None) []) =
      (Ok tt, mkWorld (fs_set (fun _ => None) BEEB (Some fl)) tr) /\
    f_len fl = 8192 + 511 * 200 * 1024.
Proof.
  split; [reflexivity|].
  destruct (nw_fresh_container BEEB false (mkWorld (fun _ => None) []) eq_refl)
    as (fl & tr & H1 & H2 & _).
  exists fl, tr. split; [exact H1 | exact H2].
Defined.

(* ------------------------------------------------------------------ *)
(** ** Import *)

Section NoSizeError.

Lemma nse_bind {A B} (m : M A) (k : A -> M B) :
  no_size_error m -> (forall a, no_size_error (k a)) -> no_size_error (bind m k).
Proof.
  intros Hm Hk w. unfold bind. specialize (Hm w).
  destruct (m w) as [[a|e] w']; [apply Hk | exact Hm].
Qed.

Lemma nse_ret {A} (a : A) : no_size_error (ret a).
Proof. intro w. exact I. Qed.

Lemma nse_ensure_true (m : msg) : no_size_error (ensure true m).
Proof. intro w. exact I. Qed.

Lemma nse_ensure (c : bool) (m : msg) :
  m <> MsgSsdEmpty -> m <> MsgSsdTooLarge -> no_size_error (ensure c m).
Proof.
  intros H1 H2 w. unfold ensure, raise. destruct c; [exact I|].
  simpl. destruct m; try exact I; congruence.
Qed.

Lemma nse_getitem cat i : no_size_error (getitem cat i).
Proof.
  intro w. unfold getitem, raise, ret.
  destruct i; [|exact I].
  repeat match goal with |- context [if ?c then _ else _] => destruct c end; exact I.
Qed.

Lemma nse_as_int i : no_size_error (as_int i).
Proof. intro w. destruct i; exact I. Qed.

Lemma nse_seek h off : no_size_error (seek h off).
Proof. intro w. unfold seek. destruct (off <? 0); exact I. Qed.

Lemma nse_write h bs : no_size_error (write h bs).
Proof. intro w. unfold write. destruct (fs w (h_path h)); exact I. Qed.

Lemma nse_read h n : no_size_error (read h n).
Proof. intro w. unfold read. destruct (fs w (h_path h)); exact I. Qed.

Lemma nse_read_all h : no_size_error (read_all h).
Proof.
  intro w. unfold read_all. destruct (fs w (h_path h)); [apply nse_read | exact I].
Qed.

Lemma nse_open_existing p : no_size_error (open_existing p).
Proof. intro w. unfold open_existing. destruct (fs w p); exact I. Qed.

Lemma nse_lift {A} (o : option A) : no_size_error (lift o UnicodeEncodeError).
Proof. intro w. destruct o; exact I. Qed.

End NoSizeError.

Ltac nse_tac :=
  repeat (cbv beta iota zeta; match goal with
  | |- no_size_error (bind _ _) => apply nse_bind; [|intros [? ?] || intro]
  | |- no_size_error (match ?x with pair _ _ => _ end) => destruct x
  | |- no_size_error (ret _) => apply nse_ret
  | |- no_size_error (ensure true _) => apply nse_ensure_true
  | |- no_size_error (ensure _ _) => apply nse_ensure; discriminate
  | |- no_size_error (getitem _ _) => apply nse_getitem
  | |- no_size_error (as_int _) => apply nse_as_int
  | |- no_size_error (seek _ _) => apply nse_seek
  | |- no_size_error (write _ _) => apply nse_write
  | |- no_size_error (read _ _) => apply nse_read
  | |- no_size_error (read_all _) => apply nse_read_all
  | |- no_size_error (open_existing _) => apply nse_open_existing
  | |- no_size_error (lift _ _) => apply nse_lift
  end).

Lemma free_indices_nonempty cat (j : Z) :
  0 <= j < 511 -> is_formatted (nth (Z.to_nat j) cat dflt_disk) = false ->
  free_indices cat <> [].
Proof.
  intros Hj Hf E.
  assert (Hin : In j (free_indices cat)).
  { unfold free_indices. apply filter_In. split.
    - apply in_map_iff. exists (Z.to_nat j). split; [lia|]. apply in_seq. lia.
    - rewrite Hf. reflexivity. }
  rewrite E in Hin. contradiction.
Qed.

(** The three cases of the size checks, once [getsize] has run. *)
Ltac size_tail src :=
  split; [|split];
  [ intros ->; reflexivity
  | intros ?; destruct (Z.ltb_spec 0 (f_len src)); [|lia];
    destruct (Z.leb_spec (f_len src) (200 * 1024)); [lia|]; reflexivity
  | intros [? ?]; destruct (Z.ltb_spec 0 (f_len src)); [|lia];
    destruct (Z.leb_spec (f_len src) (200 * 1024)); [|lia];
    match goal with
    | |- fst (?m ?w) <> _ /\ _ =>
        let Hn := fresh in
        assert (Hn : no_size_error m) by nse_tac; specialize (Hn w);
        split; let E := fresh in intro E; rewrite E in Hn; exact Hn
    end ].

Lemma filter_none {A} (f : A -> bool) (l : list A) :
  (forall x, In x l -> f x = false) -> filter f l = [].
Proof.
  induction l as [|x l IH]; intro H; [reflexivity|].
  cbn [filter]. rewrite H by (left; reflexivity). apply IH. intros y Hy. apply H. right. exact Hy.
Qed.

Lemma free_indices_nil (cat : list Disk) :
  (forall j, 0 <= j < 511 -> is_formatted (nth (Z.to_nat j) cat dflt_disk) = true) ->
  free_indices cat = [].
Proof.
  intro Hall. unfold free_indices. apply filter_none.
  intros z Hz. apply in_map_iff in Hz as (n & <- & Hn). apply in_seq in Hn.
  rewrite Hall by lia. reflexivity.
Qed.

(** C8, as amended: import's size checks.  Once a target slot is known (an
    index was given, or some slot is free so that import does not stop on
    ["no free indices"] first), an empty source fails with
    ["ssd cannot be empty"] and a source over 200 KiB with
    ["ssd cannot be larger than 200 KiB"], both after reading the catalog
    and before any write; a source of 1 to 200 KiB bytes, 200 KiB included,
    fails with neither.  With no index given and no free slot, import fails
    with ["no free indices"] right after reading the catalog, before the
    source is looked at: whatever its length, and even if it is missing. *)
Theorem im_size_checks (mmb ssd : path) (idx : option pyidx) (nm : option pystr)
    (readonly force : bool) (w : world) (fl : file) (cat : list Disk) :
  fs w mmb = Some fl -> 8192 <= f_len fl -> catalog_of fl = Some cat ->
  (forall src : file,
   fs w ssd = Some src ->
   (idx <> None \/
    exists j, 0 <= j < 511 /\ is_formatted (nth (Z.to_nat j) cat dflt_disk) = false) ->
   (f_len src = 0 ->
      action_im mmb idx ssd nm readonly force w =
      (Err (Oops MsgSsdEmpty), mkWorld (fs w) (trace w ++ catalog_reads mmb))) /\
   (200 * 1024 < f_len src ->
      action_im mmb idx ssd nm readonly force w =
      (Err (Oops MsgSsdTooLarge), mkWorld (fs w) (trace w ++ catalog_reads mmb))) /\
   (0 < f_len src <= 200 * 1024 ->
      fst (action_im mmb idx ssd nm readonly force w) <> Err (Oops MsgSsdEmpty) /\
      fst (action_im mmb idx ssd nm readonly force w) <> Err (Oops MsgSsdTooLarge))) /\
  (idx = None ->
   (forall j, 0 <= j < 511 -> is_formatted (nth (Z.to_nat j) cat dflt_disk) = true) ->
   action_im mmb idx ssd nm readonly force w =
   (Err (Oops MsgNoFreeIndices), mkWorld (fs w) (trace w ++ catalog_reads mmb))).
Proof.
  intros Hfs Hlen Hcat. unfold action_im.
  step ltac:(apply (run_open_existing mmb w fl Hfs)).
  step ltac:(apply (run_read_catalog mmb fl cat w 0 Hfs Hlen Hcat)).
  split.
  - intros src Hsrc Hidx.
    destruct idx as [i|].
    + step reflexivity.
      step ltac:(unfold getsize; cbn [fs]; rewrite Hsrc; reflexivity).
      size_tail src.
    + destruct Hidx as [Hidx | (j & Hj & Hfree)]; [congruence|].
      pose proof (free_indices_nonempty cat j Hj Hfree) as Hne.
      cbv zeta.
      destruct (free_indices cat) as [|z l]; [congruence|].
      step reflexivity.
      step ltac:(unfold getsize; cbn [fs]; rewrite Hsrc; reflexivity).
      size_tail src.
  - intros -> Hall. cbv zeta. rewrite (free_indices_nil cat Hall). reflexivity.
Qed.

(** Claim C8, witness: a container with every slot Unlocked and a source
    of exactly 200 KiB: with an explicit index both size checks pass;
    without one import stops on ["no free indices"]. *)
Lemma im_size_checks_witness :
  (fst (action_im BEEB (Some (PInt 3)) GAME None false false
          (demo_world_with demo_full (ssd_file (200 * 1024))))
     <> Err (Oops MsgSsdEmpty) /\
   fst (action_im BEEB (Some (PInt 3)) GAME None false false
          (demo_world_with demo_full (ssd_file (200 * 1024))))
     <> Err (Oops MsgSsdTooLarge)) /\
  fst (action_im BEEB None GAME None false false
         (demo_world_with demo_full (ssd_file (200 * 1024))))
    = Err (Oops MsgNoFreeIndices).
Proof.
  destruct (im_size_checks BEEB GAME (Some (PInt 3)) None false false
              (demo_world_with demo_full (ssd_file (200 * 1024)))
              demo_full (catalog_or_nil demo_full)) as [H1 _];
    [vm_compute; reflexivity | vm_compute; discriminate | vm_compute; reflexivity |].
  destruct (im_size_checks BEEB GAME None None false false
              (demo_world_with demo_full (ssd_file (200 * 1024)))
              demo_full (catalog_or_nil demo_full)) as [_ H2];
    [vm_compute; reflexivity | vm_compute; discriminate | vm_compute; reflexivity |].
  split.
  - apply (H1 (ssd_file (200 * 1024))).
    + vm_compute. reflexivity.
    + left. discriminate.
    + cbn [ssd_file f_len]. lia.
  - rewrite H2; [reflexivity | reflexivity |].
    assert (Hb : forallb is_formatted (catalog_or_nil demo_full) = true)
      by (vm_compute; reflexivity).
    assert (Hl : length (catalog_or_nil demo_full) = 511%nat) by (vm_compute; reflexivity).
    rewrite forallb_forall in Hb. intros j Hj. apply Hb. apply nth_In. lia.
Defined.

(** Claim C8, counterexample: with no index given and every slot Unlocked,
    an empty source fails with ["no free indices"], not with
    ["ssd cannot be empty"]: the free-slot search runs before the size
    checks. *)
Lemma im_empty_source_full_container :
  f_len (ssd_file 0) = 0 /\
  fst (action_im BEEB None GAME None false false
         (demo_world_with demo_full (ssd_file 0)))
    = Err (Oops MsgNoFreeIndices).
Proof. split; [reflexivity | vm_compute; reflexivity]. Qed.

(* ------------------------------------------------------------------ *)
(** ** Out-of-range indices *)

Lemma batch_plan_out_of_range (cat : list Disk) (st : Status) (i : Z) :
  (i < 0 \/ 511 <= i) ->
  batch_plan cat st [index i] = ([], Some (if i =? 511 then IndexError else TypeError)).
Proof.
  intro Hi. unfold index.
  destruct (Z.eqb_spec i 511) as [->|Hne]; [reflexivity|].
  destruct (Z.leb_spec 0 i), (Z.leb_spec i 511); try lia; reflexivity.
Qed.

(** C9: [rm], [un], [ro] and [rw] given one index outside [0, 511) do not
    fail before touching the container: they open it and read the whole
    catalog (1533 reads), then fail with [IndexError] for 511 (which
    [index] accepts) and with [TypeError] for any other out-of-range value
    (for which [index] returns a [ValueError] object instead of raising). *)
Theorem out_of_range_after_catalog_read (op : batch_op) (mmb : path) (i : Z)
    (w : world) (fl : file) (cat : list Disk) :
  fs w mmb = Some fl -> 8192 <= f_len fl -> catalog_of fl = Some cat ->
  (i < 0 \/ 511 <= i) ->
  batch_action op mmb [index i] w =
    (Err (if i =? 511 then IndexError else TypeError),
     mkWorld (fs w) (trace w ++ catalog_reads mmb)) /\
  length (catalog_reads mmb) = 1533%nat.
Proof.
  intros Hfs Hlen Hcat Hi. split; [|reflexivity].
  assert (Hop : batch_action op mmb [index i] w =
                visit mmb [index i] (Some (mk_ensurer (batch_expect op)))
                      (mk_marker (batch_mark op)) w) by (destruct op; reflexivity).
  rewrite Hop, (visit_batch mmb [index i] _ _ w fl cat Hfs Hlen Hcat)
    by (repeat constructor; apply index_shaped_index).
  rewrite batch_plan_out_of_range by exact Hi.
  cbn [fst snd fold_left map res_of]. rewrite app_nil_r, <- Hfs, fs_set_id.
  reflexivity.
Qed.

(** Claim C9, witness: [rm 511] on a container. *)
Lemma out_of_range_after_catalog_read_witness :
  action_rm BEEB [index 511] (demo_world demo_locked5) =
    (Err IndexError, mkWorld (fs (demo_world demo_locked5)) (catalog_reads BEEB)).
Proof.
  destruct (out_of_range_after_catalog_read BatchRm BEEB 511 (demo_world demo_locked5)
              demo_locked5 (catalog_or_nil demo_locked5)) as [H _].
  - reflexivity.
  - vm_compute. discriminate.
  - vm_compute. reflexivity.
  - right. lia.
  - exact H.
Defined.

(* ------------------------------------------------------------------ *)
(** ** Non-ASCII names *)

(** C5: [as_name] truncates to 12 code points, not 12 bytes: a name of
    twelve [é] (U+00E9) encodes to 24 bytes, and [rn 0] writes them all at
    offset 16, over slot 0's padding and status byte (offsets 28 to 31)
    and the first 8 name bytes of slot 1 (offsets 32 to 39). *)
Lemma rn_name_overflow :
  as_name (repeat 233 12) = Some (concat (repeat [0xC3; 0xA9] 12)) /\
  length (concat (repeat [0xC3; 0xA9] 12)) = 24%nat /\
  fst (action_rn BEEB (index 0) (repeat 233 12) (demo_world demo_full)) = Ok tt /\
  trace (snd (action_rn BEEB (index 0) (repeat 233 12) (demo_world demo_full))) =
    catalog_reads BEEB ++ [EWrite BEEB 16 (concat (repeat [0xC3; 0xA9] 12))] /\
  option_map (fun fl => (f_data fl 31, f_data fl 32))
    (fs (snd (action_rn BEEB (index 0) (repeat 233 12) (demo_world demo_full))) BEEB)
    = Some (0xA9, 0xC3) /\
  (f_data demo_full 31, f_data demo_full 32) = (0x0F, 0).
Proof. vm_compute. repeat split; reflexivity. Qed.

(** C4: starting from no file at all, [nw], then [un 0], then [rn 0] with
    a name of twelve [é] leaves slot 0's status byte at [0xA9], which is
    none of [0x00], [0x0F], [0xF0]; it decodes as Empty although the disk
    was Unlocked before the rename. *)
Lemma nonascii_rename_status_byte :
  let session : M unit :=
    _ <- action_nw BEEB false ;;
    _ <- action_un BEEB [index 0] ;;
    action_rn BEEB (index 0) (repeat 233 12) in
  let r := session (mkWorld (fun _ => None) []) in
  fst r = Ok tt /\
  option_map (fun fl => f_data fl (16 + 0 * 16 + 15)) (fs (snd r) BEEB) = Some 0xA9 /\
  parse_status_byte 0xA9 = UNFORMATTED.
Proof. vm_compute. repeat split; reflexivity. Qed.

(* ------------------------------------------------------------------ *)
(** ** Import write order *)

(** C1: [im -i 0] of a 1-byte image into an Empty slot writes the
    catalog record (name, padding, then status [0x0F]) before the payload.
    A crash just before the payload write leaves slot 0 decoding as
    Unlocked (R/W) with its payload region not yet written. *)
Lemma im_status_before_payload :
  let r := action_im BEEB (Some (PInt 0)) GAME (Some [65]) false false
             (demo_world_with demo_empty (ssd_file 1)) in
  fst r = Ok tt /\
  trace (snd r) =
    catalog_reads BEEB ++
    [ERead GAME 0 1;
     EWrite BEEB 16 (65 :: repeat 0 11);
     EWrite BEEB 28 [0; 0; 0];
     EWrite BEEB 31 [0x0F];
     EWrite BEEB 8192 [0xE5]] /\
  parse_status_byte (f_data demo_empty 31) = UNFORMATTED /\
  parse_status_byte
    (f_data (replay_writes BEEB demo_empty (firstn (1533 + 4)%nat (trace (snd r)))) 31)
    = READWRITE /\
  f_data (replay_writes BEEB demo_empty (firstn (1533 + 4)%nat (trace (snd r)))) 8192 = 0.
Proof. vm_compute. repeat split; reflexivity. Qed.

(* ------------------------------------------------------------------ *)
(** ** Copy and move *)

Lemma file_write_data fl off bs a :
  f_data (file_write fl off bs) a =
  if (off <=? a) && (a <? off + Z.of_nat (length bs))
  then nth (Z.to_nat (a - off)) bs 0 else f_data fl a.
Proof.
  destruct bs as [|b bs]; [|reflexivity].
  cbn [file_write length]. destruct (Z.leb_spec off a), (Z.ltb_spec a (off + Z.of_nat 0));
    cbn [andb]; try reflexivity; lia.
Qed.

Lemma file_write_len_in fl off bs :
  0 <= off -> off + Z.of_nat (length bs) <= f_len fl -> f_len (file_write fl off bs) = f_len fl.
Proof. intros H1 H2. destruct bs; cbn [file_write f_len]; lia. Qed.

Lemma file_read_nth fl off n k :
  (k < read_count fl off n)%nat -> nth k (file_read fl off n) 0 = f_data fl (off + Z.of_nat k).
Proof.
  intro Hk. unfold file_read.
  pose proof (map_nth (fun k => f_data fl (off + Z.of_nat k))
                (seq 0 (read_count fl off n)) 0%nat k) as E.
  rewrite seq_nth in E by exact Hk. cbv beta in E; cbn [Nat.add] in E.
  rewrite <- E. apply nth_indep. rewrite length_map, length_seq. exact Hk.
Qed.

Lemma file_read_ext fl1 fl2 o1 o2 n :
  read_count fl1 o1 n = read_count fl2 o2 n ->
  (forall k, 0 <= k < Z.of_nat (read_count fl1 o1 n) -> f_data fl1 (o1 + k) = f_data fl2 (o2 + k)) ->
  file_read fl1 o1 n = file_read fl2 o2 n.
Proof.
  intros Hc Hd. unfold file_read. rewrite <- Hc.
  apply map_ext_in. intros k Hk. apply in_seq in Hk. apply Hd. lia.
Qed.

Lemma records_from_some fl n : forall i,
  (forall j, i <= j < i + Z.of_nat n -> record_at fl j <> None) ->
  exists l, records_from fl i n = Some l.
Proof.
  induction n as [|n IH]; intros i H; cbn [records_from]; [eauto|].
  destruct (record_at fl i) as [r|] eqn:E; [| exfalso; apply (H i); [lia | exact E]].
  destruct (IH (i + 1)) as [l Hl]; [intros j Hj; apply H; lia|].
  rewrite Hl. eauto.
Qed.

Lemma run_getitem cat (i : Z) w :
  length cat = 511%nat -> 0 <= i < 511 ->
  getitem cat (PInt i) w = (Ok (nth (Z.to_nat i) cat dflt_disk), w).
Proof.
  intros Hl Hi. unfold getitem. rewrite Hl.
  destruct (Z.leb_spec 0 i), (Z.ltb_spec i (Z.of_nat 511)); try lia. reflexivity.
Qed.

Lemma nth_file_read fl off n (k : Z) :
  0 <= k < n -> off + n <= f_len fl ->
  nth (Z.to_nat k) (file_read fl off n) 0 = f_data fl (off + k).
Proof.
  intros Hk Hn. rewrite file_read_nth; [f_equal; lia | unfold read_count; lia].
Qed.

Lemma record_at_same fl fl' (i j : Z) :
  f_len fl' = f_len fl -> CONTAINER_SIZE <= f_len fl ->
  0 <= i < 511 -> 0 <= j < 511 ->
  (forall k, 0 <= k < 16 -> f_data fl' (16 + j * 16 + k) = f_data fl (16 + i * 16 + k)) ->
  record_at fl' j = record_at fl i.
Proof.
  intros Hl Hc Hi Hj Hk. unfold CONTAINER_SIZE in Hc. unfold record_at.
  rewrite (file_read_ext fl' fl (16 + j * 16) (16 + i * 16) 12).
  - rewrite (Hk 15) by lia. reflexivity.
  - unfold read_count. rewrite Hl. lia.
  - intros k Hk'. apply Hk. unfold read_count in Hk'. lia.
Qed.

(** Copying a Locked slot to an Empty slot, and moving it. *)
Lemma cp_mv_locked_core (mmb : path) (s d : Z) (force : bool) (w : world)
    (fl : file) (cat : list Disk) :
  fs w mmb = Some fl -> CONTAINER_SIZE <= f_len fl -> catalog_of fl = Some cat ->
  0 <= s < 511 -> 0 <= d < 511 -> s <> d ->
  parse_status_byte (f_data fl (16 + s * 16 + 15)) = READONLY ->
  parse_status_byte (f_data fl (16 + d * 16 + 15)) = UNFORMATTED ->
  exists fl2 tr,
    action_cp mmb (PInt s) (PInt d) force w =
      (Ok tt, mkWorld (fs_set (fs w) mmb (Some fl2)) tr) /\
    f_len fl2 = f_len fl /\
    (forall k, 0 <= k < 200 * 1024 ->
       f_data fl2 (8192 + d * 200 * 1024 + k) = f_data fl (8192 + s * 200 * 1024 + k)) /\
    (forall k, 0 <= k < 16 -> f_data fl2 (16 + d * 16 + k) = f_data fl (16 + s * 16 + k)) /\
    record_at fl2 d = record_at fl s /\
    (forall a, ~ (8192 + d * 200 * 1024 <= a < 8192 + d * 200 * 1024 + 200 * 1024) ->
       ~ (16 + d * 16 <= a < 16 + d * 16 + 16) -> f_data fl2 a = f_data fl a) /\
    action_mv mmb (PInt s) (PInt d) force w =
      (Err (Oops (MsgDiskIs (PInt s) READONLY)),
       mkWorld (fs_set (fs w) mmb (Some fl2)) (tr ++ catalog_reads mmb)) /\
    parse_status_byte (f_data fl2 (16 + s * 16 + 15)) = READONLY.
Proof.
  intros Hfs Hlen Hcat Hs Hd Hsd Hst_s Hst_d.
  unfold CONTAINER_SIZE in Hlen.
  pose proof (catalog_length fl cat Hcat) as Hcl.
  set (P := file_read fl (8192 + s * 200 * 1024) (200 * 1024)).
  assert (HP : length P = Z.to_nat (200 * 1024)) by (apply file_read_length; lia).
  set (fl1 := file_write fl (8192 + d * 200 * 1024) P).
  assert (Hlen1 : f_len fl1 = f_len fl) by (apply file_write_len_in; rewrite ?HP; lia).
  set (R := file_read fl1 (16 + s * 16) 16).
  assert (HR : length R = 16%nat) by (apply file_read_length; lia).
  set (fl2 := file_write fl1 (16 + d * 16) R).
  assert (Hlen2 : f_len fl2 = f_len fl) by (unfold fl2; rewrite file_write_len_in; lia).
  assert (Hcp : exists tr, action_cp mmb (PInt s) (PInt d) force w =
                           (Ok tt, mkWorld (fs_set (fs w) mmb (Some fl2)) tr)).
  { unfold action_cp.
    step ltac:(apply (run_open_existing mmb w fl Hfs)).
    step ltac:(apply (run_read_catalog mmb fl cat w 0 Hfs ltac:(lia) Hcat)).
    step ltac:(apply run_getitem; assumption).
    step ltac:(unfold ensure, is_formatted; rewrite (catalog_status fl cat s Hcat Hs), Hst_s;
               reflexivity).
    step ltac:(apply run_getitem; assumption).
    step ltac:(unfold ensure, is_formatted; rewrite (catalog_status fl cat d Hcat Hd), Hst_d;
               reflexivity).
    step reflexivity. step reflexivity.
    step ltac:(apply run_seek; lia). cbn [h_path h_pos].
    step ltac:(apply (run_read mmb _ _ _ fl); [exact Hfs | lia | lia]).
    step ltac:(apply run_seek; lia). cbn [h_path h_pos].
    step ltac:(apply (run_write _ _ _ fl); exact Hfs). cbn [h_path h_pos fs trace].
    fold P fl1.
    step ltac:(apply run_seek; lia). cbn [h_path h_pos].
    step ltac:(apply (run_read mmb _ _ _ fl1); [apply fs_set_eq | lia | lia]).
    fold R.
    step ltac:(apply run_seek; lia). cbn [h_path h_pos].
    step ltac:(apply (run_write _ _ _ fl1); apply fs_set_eq). cbn [h_path h_pos fs trace].
    fold fl2. rewrite fs_set_set. eexists. reflexivity. }
  destruct Hcp as [tr Hcp].
  assert (Hfl1 : forall a, f_data fl1 a =
            if (8192 + d * 200 * 1024 <=? a) && (a <? 8192 + d * 200 * 1024 + 200 * 1024)
            then f_data fl (8192 + s * 200 * 1024 + (a - (8192 + d * 200 * 1024)))
            else f_data fl a).
  { intro a. unfold fl1. rewrite file_write_data, HP, Z2Nat.id by lia.
    destruct (Z.leb_spec (8192 + d * 200 * 1024) a),
             (Z.ltb_spec a (8192 + d * 200 * 1024 + 200 * 1024)); cbn [andb]; try reflexivity.
    unfold P. apply nth_file_read; lia. }
  assert (Hfl2 : forall a, f_data fl2 a =
            if (16 + d * 16 <=? a) && (a <? 16 + d * 16 + 16)
            then f_data fl (16 + s * 16 + (a - (16 + d * 16)))
            else f_data fl1 a).
  { intro a. unfold fl2. rewrite file_write_data, HR.
    change (Z.of_nat 16) with 16.
    destruct (Z.leb_spec (16 + d * 16) a), (Z.ltb_spec a (16 + d * 16 + 16));
      cbn [andb]; try reflexivity.
    unfold R. rewrite nth_file_read by lia. rewrite Hfl1.
    destruct (Z.leb_spec (8192 + d * 200 * 1024) (16 + s * 16 + (a - (16 + d * 16)))); [lia|].
    reflexivity. }
  assert (Hout : forall a, ~ (8192 + d * 200 * 1024 <= a < 8192 + d * 200 * 1024 + 200 * 1024) ->
            ~ (16 + d * 16 <= a < 16 + d * 16 + 16) -> f_data fl2 a = f_data fl a).
  { intros a H1 H2. rewrite Hfl2, Hfl1.
    destruct (Z.leb_spec (16 + d * 16) a), (Z.ltb_spec a (16 + d * 16 + 16)); try lia;
      cbn [andb];
    destruct (Z.leb_spec (8192 + d * 200 * 1024) a),
             (Z.ltb_spec a (8192 + d * 200 * 1024 + 200 * 1024)); try lia; reflexivity. }
  assert (Hpay : forall k, 0 <= k < 200 * 1024 ->
            f_data fl2 (8192 + d * 200 * 1024 + k) = f_data fl (8192 + s * 200 * 1024 + k)).
  { intros k Hk. rewrite Hfl2, Hfl1.
    destruct (Z.leb_spec (16 + d * 16) (8192 + d * 200 * 1024 + k)),
             (Z.ltb_spec (8192 + d * 200 * 1024 + k) (16 + d * 16 + 16)); try lia; cbn [andb].
    destruct (Z.leb_spec (8192 + d * 200 * 1024) (8192 + d * 200 * 1024 + k)),
             (Z.ltb_spec (8192 + d * 200 * 1024 + k) (8192 + d * 200 * 1024 + 200 * 1024));
      try lia; cbn [andb].
    f_equal. lia. }
  assert (Hrec : forall k, 0 <= k < 16 ->
            f_data fl2 (16 + d * 16 + k) = f_data fl (16 + s * 16 + k)).
  { intros k Hk. rewrite Hfl2.
    destruct (Z.leb_spec (16 + d * 16) (16 + d * 16 + k)),
             (Z.ltb_spec (16 + d * 16 + k) (16 + d * 16 + 16)); try lia; cbn [andb].
    f_equal. lia. }
  assert (Hsrc2 : f_data fl2 (16 + s * 16 + 15) = f_data fl (16 + s * 16 + 15))
    by (apply Hout; lia).
  assert (Hcat2 : exists cat2, catalog_of fl2 = Some cat2).
  { apply records_from_some. intros j Hj. cbn [Z.of_nat Pos.of_succ_nat] in Hj.
    destruct (Z.eq_dec j d) as [->|Hjd].
    - rewrite (record_at_same fl fl2 s d) by (unfold CONTAINER_SIZE; lia || assumption).
      rewrite (catalog_nth fl cat s Hcat Hs). discriminate.
    - rewrite (record_at_same fl fl2 j j) by
        (unfold CONTAINER_SIZE; lia || (intros k Hk; apply Hout; lia)).
      rewrite (catalog_nth fl cat j Hcat ltac:(lia)). discriminate. }
  destruct Hcat2 as [cat2 Hcat2].
  exists fl2, tr. split; [exact Hcp|]. split; [exact Hlen2|].
  split; [exact Hpay|]. split; [exact Hrec|].
  split; [apply record_at_same; unfold CONTAINER_SIZE; lia || assumption|].
  split; [exact Hout|].
  split; [|rewrite Hsrc2; exact Hst_s].
  unfold action_mv. step ltac:(exact Hcp).
  unfold action_rm.
  rewrite (visit_batch mmb [PInt s] READWRITE UNFORMATTED _ fl2 cat2)
    by (cbn [fs]; apply fs_set_eq || lia || assumption ||
        (repeat constructor; unfold index_shaped; lia)).
  cbn [batch_plan].
  destruct (Z.leb_spec 0 s), (Z.ltb_spec s 511); try lia. cbn [andb].
  rewrite (catalog_status fl2 cat2 s Hcat2 Hs), Hsrc2, Hst_s.
  cbn [Status_eqb fst snd fold_left map res_of fs trace].
  rewrite fs_set_set, app_nil_r. reflexivity.
Qed.

(** C3, as amended: copying a Locked slot [s] to an Empty slot [d] of a
    full-size container succeeds; the 200 KiB payload and the 16-byte
    record of [d] become those of [s], so [d] decodes as [s] did (Locked,
    same name), and no other byte changes.  Moving does the same copy and
    then fails, since its delete step accepts only Unlocked slots: the
    container is left with the copy made and [s] still Locked. *)
Theorem cp_locked_to_empty (mmb : path) (s d : Z) (force : bool) (w : world)
    (fl : file) (cat : list Disk) :
  fs w mmb = Some fl -> CONTAINER_SIZE <= f_len fl -> catalog_of fl = Some cat ->
  0 <= s < 511 -> 0 <= d < 511 -> s <> d ->
  parse_status_byte (f_data fl (16 + s * 16 + 15)) = READONLY ->
  parse_status_byte (f_data fl (16 + d * 16 + 15)) = UNFORMATTED ->
  exists fl2 tr,
    action_cp mmb (PInt s) (PInt d) force w =
      (Ok tt, mkWorld (fs_set (fs w) mmb (Some fl2)) tr) /\
    f_len fl2 = f_len fl /\
    (forall k, 0 <= k < 200 * 1024 ->
       f_data fl2 (8192 + d * 200 * 1024 + k) = f_data fl (8192 + s * 200 * 1024 + k)) /\
    (forall k, 0 <= k < 16 -> f_data fl2 (16 + d * 16 + k) = f_data fl (16 + s * 16 + k)) /\
    record_at fl2 d = record_at fl s /\
    (forall a, ~ (8192 + d * 200 * 1024 <= a < 8192 + d * 200 * 1024 + 200 * 1024) ->
       ~ (16 + d * 16 <= a < 16 + d * 16 + 16) -> f_data fl2 a = f_data fl a) /\
    action_mv mmb (PInt s) (PInt d) force w =
      (Err (Oops (MsgDiskIs (PInt s) READONLY)),
       mkWorld (fs_set (fs w) mmb (Some fl2)) (tr ++ catalog_reads mmb)) /\
    parse_status_byte (f_data fl2 (16 + s * 16 + 15)) = READONLY.
Proof.
  intros Hfs Hlen Hcat Hs Hd Hsd Hst_s Hst_d.
  exact (cp_mv_locked_core mmb s d force w fl cat Hfs Hlen Hcat Hs Hd Hsd Hst_s Hst_d).
Qed.

(** Claim C3, witness: copy of Locked slot 5 to Empty slot 7. *)
Lemma cp_locked_to_empty_witness :
  exists fl2 tr,
    action_cp BEEB (PInt 5) (PInt 7) false (demo_world demo_locked5) =
      (Ok tt, mkWorld (fs_set (fs (demo_world demo_locked5)) BEEB (Some fl2)) tr) /\
    record_at fl2 7 = record_at demo_locked5 5.
Proof.
  destruct (cp_locked_to_empty BEEB 5 7 false (demo_world demo_locked5)
              demo_locked5 (catalog_or_nil demo_locked5))
    as (fl2 & tr & H1 & _ & _ & _ & H5 & _).
  - reflexivity.
  - vm_compute. discriminate.
  - vm_compute. reflexivity.
  - lia.
  - lia.
  - lia.
  - vm_compute. reflexivity.
  - vm_compute. reflexivity.
  - exists fl2, tr. split; [exact H1 | exact H5].
Defined.

(** Claim C3, counterexample: [mv 5 7] with slot 5 Locked and slot 7 Empty
    fails with ["disk 5 is RO"], and slot 5 is still Locked afterwards. *)
Lemma mv_locked_source_stays_locked :
  let r := action_mv BEEB (PInt 5) (PInt 7) false (demo_world demo_locked5) in
  parse_status_byte (f_data demo_locked5 (16 + 5 * 16 + 15)) = READONLY /\
  parse_status_byte (f_data demo_locked5 (16 + 7 * 16 + 15)) = UNFORMATTED /\
  fst r = Err (Oops (MsgDiskIs (PInt 5) READONLY)) /\
  option_map (fun fl => parse_status_byte (f_data fl (16 + 5 * 16 + 15))) (fs (snd r) BEEB)
    = Some READONLY.
Proof.
  destruct (cp_mv_locked_core BEEB 5 7 false (demo_world demo_locked5)
              demo_locked5 (catalog_or_nil demo_locked5))
    as (fl2 & tr & _ & _ & _ & _ & _ & _ & Hmv & Hst).
  - reflexivity.
  - vm_compute. discriminate.
  - vm_compute. reflexivity.
  - lia.
  - lia.
  - lia.
  - vm_compute. reflexivity.
  - vm_compute. reflexivity.
  - cbv zeta. rewrite Hmv. cbn [fst snd fs option_map]. rewrite fs_set_eq.
    cbn [option_map]. rewrite Hst.
    split; [vm_compute; reflexivity|]. split; [vm_compute; reflexivity|].
    split; reflexivity.
Qed.

(* ------------------------------------------------------------------ *)
(** ** Further properties of the code *)

(** X1: for each of the four statuses, [as_status] gives one byte, and
    [parse_status] of it gives the same status back without touching the
    world. *)
Theorem parse_status_as_status (st : Status) (w : world) :
  length (as_status st) = 1%nat /\ parse_status (as_status st) w = (Ok st, w).
Proof. destruct st; split; reflexivity. Qed.

Lemma utf8_encode_char_length c b :
  utf8_encode_char c = Some b -> (1 <= length b)%nat.
Proof.
  unfold utf8_encode_char. intro H.
  repeat match type of H with
  | context [if ?c then _ else _] => destruct c
  end; try discriminate; injection H as <-; simpl; lia.
Qed.

Lemma utf8_encode_length s bs :
  utf8_encode s = Some bs -> (length s <= length bs)%nat.
Proof.
  revert bs. induction s as [|c s IH]; intros bs H; simpl in *; [lia|].
  destruct (utf8_encode_char c) as [b|] eqn:Eb; [|discriminate].
  destruct (utf8_encode s) as [rb|]; [|discriminate].
  injection H as <-. rewrite length_app.
  pose proof (utf8_encode_char_length c b Eb). specialize (IH rb eq_refl). lia.
Qed.

Lemma utf8_encode_ascii s :
  Forall (fun c => 0 <= c < 128) s -> utf8_encode s = Some s.
Proof.
  induction 1 as [|c s Hc Hs IH]; [reflexivity|].
  simpl. unfold utf8_encode_char. destruct (Z.ltb_spec c 0x80); [|lia].
  rewrite IH. reflexivity.
Qed.

Lemma as_name_field_length s :
  length (firstn 12 s ++ repeat 0 (Z.to_nat (12 - Z.of_nat (length (firstn 12 s)))))
  = 12%nat.
Proof.
  rewrite length_app, repeat_length, length_firstn. lia.
Qed.

(** X2: [as_name] never yields fewer than 12 bytes, and exactly the 12-byte
    field [s[:12]] padded with nulls when those code points are ASCII. *)
Theorem as_name_length (s : pystr) :
  (forall bs, as_name s = Some bs -> (12 <= length bs)%nat) /\
  (Forall (fun c => 0 <= c < 128) (firstn 12 s) ->
   as_name s = Some (firstn 12 s ++ repeat 0 (12 - length (firstn 12 s))) /\
   length (firstn 12 s ++ repeat 0 (12 - length (firstn 12 s))) = 12%nat).
Proof.
  split.
  - intros bs H. unfold as_name in H. apply utf8_encode_length in H.
    rewrite as_name_field_length in H. exact H.
  - intro Ha. unfold as_name.
    replace (Z.to_nat (12 - Z.of_nat (length (firstn 12 s))))
      with (12 - length (firstn 12 s))%nat by lia.
    rewrite utf8_encode_ascii.
    + split; [reflexivity|]. rewrite length_app, repeat_length, length_firstn. lia.
    + apply Forall_app. split; [exact Ha|].
      apply Forall_forall. intros x Hx. apply repeat_spec in Hx. lia.
Qed.

Lemma as_name_length_witness :
  as_name (s2py "GAME") = Some (s2py "GAME" ++ repeat 0 8) /\
  length (s2py "GAME" ++ repeat 0 8) = 12%nat.
Proof.
  apply (proj2 (as_name_length (s2py "GAME"))).
  repeat constructor; vm_compute; congruence.
Defined.

Lemma land_255 x : 0 <= x -> Z.land x 255 = x mod 256.
Proof. intro H. change 255 with (Z.ones 8). rewrite Z.land_ones by lia. reflexivity. Qed.

Lemma dd_byte_bounds x :
  0 <= x < 65536 ->
  (0 <=? Z.land x 255) && (Z.land x 255 <? 256) = true /\
  (0 <=? x / 256) && (x / 256 <? 256) = true.
Proof.
  intro H. rewrite land_255 by lia.
  split; apply andb_true_intro; split;
    first [apply Z.leb_le | apply Z.ltb_lt]; Z.div_mod_to_equations; lia.
Qed.

Lemma run_action_dd mmb d0 d1 d2 d3 w fl :
  fs w mmb = Some fl ->
  Forall (fun d => 0 <= d < 65536) [d0; d1; d2; d3] -> NoDup [d0; d1; d2; d3] ->
  action_dd mmb (PInt d0) (PInt d1) (PInt d2) (PInt d3) w =
  (Ok tt, mkWorld (fs_set (fs w) mmb (Some (file_write fl 0 (dd_bytes d0 d1 d2 d3))))
                  (trace w ++ [EWrite mmb 0 (dd_bytes d0 d1 d2 d3)])).
Proof.
  intros Hfs Hr Hd.
  inversion Hr as [|? ? R0 Hr1]; inversion Hr1 as [|? ? R1 Hr2];
  inversion Hr2 as [|? ? R2 Hr3]; inversion Hr3 as [|? ? R3 _]; subst.
  assert (Hu : all_distinct4 (PInt d0) (PInt d1) (PInt d2) (PInt d3) = true).
  { unfold all_distinct4, pyidx_eqb.
    inversion Hd as [|? ? N0 Hd1]; inversion Hd1 as [|? ? N1 Hd2];
    inversion Hd2 as [|? ? N2 _]; subst. cbn [In] in *.
    repeat rewrite (proj2 (Z.eqb_neq _ _)) by intuition. reflexivity. }
  unfold action_dd. step ltac:(unfold ensure; rewrite Hu; reflexivity).
  cbn [as_int]. unfold ret at 1 2 3 4, bind at 1 2 3 4. cbv beta iota.
  unfold to_bytes. fold (dd_bytes d0 d1 d2 d3).
  replace (forallb (fun b => (0 <=? b) && (b <? 256)) (dd_bytes d0 d1 d2 d3)) with true.
  2:{ destruct (dd_byte_bounds d0 R0) as [A0 B0], (dd_byte_bounds d1 R1) as [A1 B1],
        (dd_byte_bounds d2 R2) as [A2 B2], (dd_byte_bounds d3 R3) as [A3 B3].
      unfold dd_bytes. cbn [forallb].
      rewrite A0, A1, A2, A3, B0, B1, B2, B3. reflexivity. }
  unfold ret at 1, bind at 1. cbv beta iota.
  step ltac:(exact (run_open_existing _ _ _ Hfs)).
  step ltac:(exact (run_write (mkHandle mmb 0) _ _ _ Hfs)). reflexivity.
Qed.

Lemma run_read_mapping p pos w fl :
  fs w p = Some fl -> 8 <= f_len fl ->
  read_mapping (mkHandle p pos) w =
  (Ok (map (fun '(lo, hi) => hi * 256 + lo)
           (combine (firstn 4 (file_read fl 0 8)) (skipn 4 (file_read fl 0 8)))),
   mkWorld (fs w) (trace w ++ [ERead p 0 8])).
Proof.
  intros Hfs Hl. unfold read_mapping.
  step ltac:(apply run_seek; lia). cbn [h_path].
  step ltac:(apply run_read; [exact Hfs | lia | lia]). reflexivity.
Qed.

(** X3: after [dd] with four distinct drive numbers in [0, 65536),
    [read_mapping] returns exactly those numbers; only bytes 0..7 of the
    container change and its length stays the same. *)
Theorem dd_then_read_mapping mmb d0 d1 d2 d3 w fl pos :
  fs w mmb = Some fl -> 8 <= f_len fl ->
  Forall (fun d => 0 <= d < 65536) [d0; d1; d2; d3] -> NoDup [d0; d1; d2; d3] ->
  let '(r, w') := action_dd mmb (PInt d0) (PInt d1) (PInt d2) (PInt d3) w in
  r = Ok tt /\
  exists fl', fs w' = fs_set (fs w) mmb (Some fl') /\
    f_len fl' = f_len fl /\
    (forall a, (a < 0 \/ 8 <= a) -> f_data fl' a = f_data fl a) /\
    fst (read_mapping (mkHandle mmb pos) w') = Ok [d0; d1; d2; d3].
Proof.
  intros Hfs Hl Hr Hd.
  rewrite (run_action_dd mmb d0 d1 d2 d3 w fl Hfs Hr Hd).
  split; [reflexivity|].
  set (fl' := file_write fl 0 (dd_bytes d0 d1 d2 d3)).
  assert (Hlen : f_len fl' = f_len fl) by (apply file_write_len_in; cbn; lia).
  exists fl'. split; [reflexivity|]. split; [exact Hlen|]. split.
  - intros a Ha. unfold fl'. rewrite file_write_data.
    change (length (dd_bytes d0 d1 d2 d3)) with 8%nat. cbn [Z.of_nat Pos.of_succ_nat Pos.succ].
    zcase; reflexivity.
  - rewrite (run_read_mapping mmb pos _ fl') by (cbn [fs]; rewrite ?fs_set_eq; auto; lia).
    cbn [fst].
    inversion Hr as [|? ? R0 Hr1]; inversion Hr1 as [|? ? R1 Hr2];
    inversion Hr2 as [|? ? R2 Hr3]; inversion Hr3 as [|? ? R3 _]; subst.
    assert (Hb : file_read fl' 0 8 = dd_bytes d0 d1 d2 d3).
    { apply nth_ext with 0 0.
      - rewrite file_read_length by lia. reflexivity.
      - intros k Hk. rewrite file_read_length in Hk by lia. cbn in Hk.
        rewrite file_read_nth by (unfold read_count; lia).
        unfold fl'. rewrite file_write_data.
        change (length (dd_bytes d0 d1 d2 d3)) with 8%nat.
        zcase. f_equal. lia. }
    rewrite Hb. cbn [dd_bytes firstn skipn combine map].
    rewrite !land_255 by lia.
    repeat f_equal; Z.div_mod_to_equations; lia.
Qed.

Lemma dd_then_read_mapping_witness :
  fst (read_mapping (mkHandle BEEB 0)
         (snd (action_dd BEEB (PInt 3) (PInt 1) (PInt 2) (PInt 0) (demo_world demo_locked5))))
  = Ok [3; 1; 2; 0].
Proof.
  pose proof (dd_then_read_mapping BEEB 3 1 2 0 (demo_world demo_locked5) demo_locked5 0
                eq_refl) as H.
  destruct (action_dd BEEB (PInt 3) (PInt 1) (PInt 2) (PInt 0) (demo_world demo_locked5))
    as [r w'].
  destruct H as [_ (fl' & _ & _ & _ & H)].
  - vm_compute. discriminate.
  - repeat constructor; lia.
  - repeat constructor; cbn; lia.
  - exact H.
Defined.

(** X4: [dd] checks its arguments before it opens the container: two equal
    drive numbers fail with [MsgDisksUnique], and otherwise an out-of-range
    number ([PValueError]) fails with [TypeError]; either way nothing is
    read or written, even when the container does not exist. *)
Theorem dd_errors_before_io mmb d0 d1 d2 d3 w :
  (dd_dup [d0; d1; d2; d3] ->
   action_dd mmb d0 d1 d2 d3 w = (Err (Oops MsgDisksUnique), w)) /\
  (~ dd_dup [d0; d1; d2; d3] -> (exists v, In (PValueError v) [d0; d1; d2; d3]) ->
   action_dd mmb d0 d1 d2 d3 w = (Err TypeError, w)).
Proof.
  split.
  - intros (i & j & x & Hij & Hi & Hj).
    assert (Hu : all_distinct4 d0 d1 d2 d3 = false).
    { unfold all_distinct4.
      destruct i as [|[|[|[|i]]]]; destruct j as [|[|[|[|j]]]]; cbn in Hi, Hj;
        try lia; try discriminate; try (destruct j; discriminate);
        injection Hi as ->; injection Hj as ->;
        cbn [pyidx_eqb]; rewrite Z.eqb_refl; rewrite ?orb_true_r; reflexivity. }
    unfold action_dd, ensure. rewrite Hu. reflexivity.
  - intros Hnd (v & Hv).
    assert (Hu : all_distinct4 d0 d1 d2 d3 = true).
    { unfold all_distinct4.
      destruct (pyidx_eqb d0 d1) eqn:E01; [exfalso; apply Hnd; destruct d0, d1; try discriminate;
        apply Z.eqb_eq in E01; subst; exists 0%nat, 1%nat; eexists; split; [lia | split; reflexivity]|].
      destruct (pyidx_eqb d0 d2) eqn:E02; [exfalso; apply Hnd; destruct d0, d2; try discriminate;
        apply Z.eqb_eq in E02; subst; exists 0%nat, 2%nat; eexists; split; [lia | split; reflexivity]|].
      destruct (pyidx_eqb d0 d3) eqn:E03; [exfalso; apply Hnd; destruct d0, d3; try discriminate;
        apply Z.eqb_eq in E03; subst; exists 0%nat, 3%nat; eexists; split; [lia | split; reflexivity]|].
      destruct (pyidx_eqb d1 d2) eqn:E12; [exfalso; apply Hnd; destruct d1, d2; try discriminate;
        apply Z.eqb_eq in E12; subst; exists 1%nat, 2%nat; eexists; split; [lia | split; reflexivity]|].
      destruct (pyidx_eqb d1 d3) eqn:E13; [exfalso; apply Hnd; destruct d1, d3; try discriminate;
        apply Z.eqb_eq in E13; subst; exists 1%nat, 3%nat; eexists; split; [lia | split; reflexivity]|].
      destruct (pyidx_eqb d2 d3) eqn:E23; [exfalso; apply Hnd; destruct d2, d3; try discriminate;
        apply Z.eqb_eq in E23; subst; exists 2%nat, 3%nat; eexists; split; [lia | split; reflexivity]|].
      reflexivity. }
    unfold action_dd, ensure. rewrite Hu. unfold ret at 1, bind at 1. cbv beta iota.
    cbn [In] in Hv.
    destruct d0; [|reflexivity]; destruct d1; [|reflexivity];
    destruct d2; [|reflexivity]; destruct d3; [|reflexivity].
    exfalso; intuition discriminate.
Qed.

Lemma dd_errors_before_io_witness :
  action_dd GAME (PInt 3) (PInt 1) (PInt 3) (PInt 0) (mkWorld (fun _ => None) [])
    = (Err (Oops MsgDisksUnique), mkWorld (fun _ => None) []) /\
  action_dd GAME (PInt 3) (PValueError 600) (PInt 2) (PInt 0) (mkWorld (fun _ => None) [])
    = (Err TypeError, mkWorld (fun _ => None) []).
Proof.
  split.
  - apply (proj1 (dd_errors_before_io GAME (PInt 3) (PInt 1) (PInt 3) (PInt 0)
                    (mkWorld (fun _ => None) []))).
    exists 0%nat, 2%nat, 3. split; [lia | split; reflexivity].
  - apply (proj2 (dd_errors_before_io GAME (PInt 3) (PValueError 600) (PInt 2) (PInt 0)
                    (mkWorld (fun _ => None) []))).
    + intros (i & j & x & Hij & Hi & Hj).
      destruct i as [|[|[|[|i]]]]; destruct j as [|[|[|[|j]]]]; cbn in Hi, Hj;
        try lia; try discriminate; try (destruct j; discriminate);
        injection Hi as <-; injection Hj as Hj; lia.
    + exists 600. cbn. auto.
Defined.

Lemma run_action_nw (mmb : path) (force : bool) (w : world) :
  fs w mmb = None \/ force = true ->
  exists tr, action_nw mmb force w = (Ok tt, mkWorld (fs_set (fs w) mmb (Some nw_file)) tr).
Proof.
  intro Hok. unfold action_nw.
  step ltac:(reflexivity).
  step ltac:(unfold ensure; destruct Hok as [Hn | ->];
             [rewrite Hn | rewrite orb_true_r]; reflexivity).
  step reflexivity. cbn [fs trace].
  step ltac:(apply (run_write (mkHandle mmb 0)); cbn [h_path fs]; apply fs_set_eq).
  cbn [h_path h_pos fs trace]. rewrite fs_set_set.
  step ltac:(apply (run_write (mkHandle mmb _)); cbn [h_path fs]; apply fs_set_eq).
  cbn [h_path h_pos fs trace]. rewrite fs_set_set.
  match goal with
  | |- context [bind (nw_statuses ?h 0 511) _ ?w1] =>
      destruct (run_nw_statuses mmb 511 0 (h_pos h) w1 _ ltac:(apply fs_set_eq) ltac:(lia))
        as [h' [tr1 [E Hh]]]
  end.
  step ltac:(exact E). cbn [fs]. rewrite fs_set_set.
  step ltac:(apply run_seek; lia).
  step ltac:(apply (run_write (mkHandle (h_path h') _)); cbn [h_path fs]; rewrite Hh;
             apply fs_set_eq).
  cbn [fs h_path]. rewrite Hh, fs_set_set. unfold ret.
  eexists. reflexivity.
Qed.

(** X5: [nw] without [force] on an existing path fails with
    [MsgFileExists] and changes nothing; with [force] it replaces the file
    by exactly the container a creation on a fresh path produces; other
    paths are never touched. *)
Theorem nw_existing_path (mmb : path) (w : world) :
  (fs w mmb <> None -> action_nw mmb false w = (Err (Oops (MsgFileExists mmb)), w)) /\
  (forall w0, fs w0 mmb = None ->
     fst (action_nw mmb true w) = Ok tt /\
     fs (snd (action_nw mmb true w)) mmb = fs (snd (action_nw mmb false w0)) mmb) /\
  (forall force q, q <> mmb -> fs (snd (action_nw mmb force w)) q = fs w q).
Proof.
  split; [|split].
  - intro Hex. unfold action_nw.
    step reflexivity. unfold ensure.
    destruct (fs w mmb); [reflexivity | congruence].
  - intros w0 H0.
    destruct (run_action_nw mmb true w (or_intror eq_refl)) as [tr1 E1].
    destruct (run_action_nw mmb false w0 (or_introl H0)) as [tr0 E0].
    rewrite E1, E0. cbn [fst snd fs]. rewrite !fs_set_eq. split; reflexivity.
  - intros force q Hq.
    destruct (fs w mmb) eqn:Hm.
    + destruct force.
      * destruct (run_action_nw mmb true w (or_intror eq_refl)) as [tr E].
        rewrite E. cbn [snd fs]. apply fs_set_neq. exact Hq.
      * unfold action_nw. step reflexivity. unfold ensure. rewrite Hm. reflexivity.
    + destruct (run_action_nw mmb force w (or_introl Hm)) as [tr E].
      rewrite E. cbn [snd fs]. apply fs_set_neq. exact Hq.
Qed.

Lemma nw_existing_path_witness :
  action_nw BEEB false (demo_world demo_locked5) =
    (Err (Oops (MsgFileExists BEEB)), demo_world demo_locked5) /\
  fst (action_nw BEEB true (demo_world demo_locked5)) = Ok tt /\
  fs (snd (action_nw BEEB true (demo_world demo_locked5))) BEEB =
  fs (snd (action_nw BEEB false (mkWorld (fun _ => None) []))) BEEB /\
  fs (snd (action_nw BEEB true (demo_world demo_locked5))) GAME = None.
Proof.
  destruct (nw_existing_path BEEB (demo_world demo_locked5)) as (H1 & H2 & H3).
  split; [apply H1; discriminate|].
  split; [apply (H2 (mkWorld (fun _ => None) [])); reflexivity|].
  split; [apply (H2 (mkWorld (fun _ => None) [])); reflexivity|].
  rewrite H3 by discriminate. reflexivity.
Defined.

Lemma ls_loop_counts (show_all : bool) (cat : list Disk) : forall index,
  length (fst (ls_loop show_all index cat)) =
    (if show_all then length cat else length (filter is_formatted cat)) /\
  snd (ls_loop show_all index cat) = Z.of_nat (length (filter is_formatted cat)).
Proof.
  induction cat as [|d cat IH]; intro index; [destruct show_all; split; reflexivity|].
  cbn [ls_loop filter]. destruct (IH (index + 1)) as [IH1 IH2].
  destruct (ls_loop show_all (index + 1) cat) as [lines disks]. cbn [fst snd] in *.
  rewrite length_app, IH1, IH2.
  destruct show_all, (is_formatted d); cbn [orb length]; split; lia.
Qed.

(** X6: [ls] on a container with a readable catalog only reads: the file
    system is unchanged and the trace gains the 8-byte mapping read and the
    catalog reads.  It prints one line per slot with [-a], otherwise one
    per formatted slot, then a summary line whose count is the number of
    formatted slots and whose mapping is the one [read_mapping] returns. *)
Theorem ls_read_only (mmb : path) (show_all : bool) (w : world) (fl : file) (cat : list Disk) :
  fs w mmb = Some fl -> 8192 <= f_len fl -> catalog_of fl = Some cat ->
  exists lines mapping,
    action_ls mmb show_all w =
      (Ok lines, mkWorld (fs w) (trace w ++ [ERead mmb 0 8] ++ catalog_reads mmb)) /\
    fst (read_mapping (mkHandle mmb 0) w) = Ok mapping /\
    length lines = S (if show_all then 511 else length (filter is_formatted cat)) /\
    last lines [] = str_int (Z.of_nat (length (filter is_formatted cat)))
                    ++ s2py "/511 disks in use, drive mapping "
                    ++ join_space (map str_int mapping).
Proof.
  intros Hfs Hlen Hcat. unfold action_ls.
  step ltac:(exact (run_open_existing _ _ _ Hfs)).
  step ltac:(apply (run_read_mapping mmb 0 w fl Hfs); lia).
  step ltac:(apply (run_read_catalog mmb fl cat); [exact Hfs | exact Hlen | exact Hcat]).
  destruct (ls_loop_counts show_all cat 0) as [H1 H2].
  destruct (ls_loop show_all 0 cat) as [lines disks]. cbn [fst snd] in H1, H2.
  eexists _, _. split; [unfold ret; cbn [fs trace]; rewrite <- (app_assoc (trace w)); reflexivity|].
  split; [rewrite (run_read_mapping mmb 0 w fl Hfs) by lia; reflexivity|].
  split.
  - rewrite length_app, H1. cbn [length].
    rewrite (catalog_length fl cat Hcat). destruct show_all; lia.
  - rewrite last_last, H2, app_assoc. reflexivity.
Qed.

Lemma ls_read_only_witness :
  exists lines mapping,
    action_ls BEEB false (demo_world demo_locked5) =
      (Ok lines, mkWorld (fs (demo_world demo_locked5))
                         (trace (demo_world demo_locked5) ++ [ERead BEEB 0 8] ++ catalog_reads BEEB)) /\
    fst (read_mapping (mkHandle BEEB 0) (demo_world demo_locked5)) = Ok mapping /\
    length lines = S (length (filter is_formatted (catalog_or_nil demo_locked5))) /\
    last lines [] = str_int (Z.of_nat (length (filter is_formatted (catalog_or_nil demo_locked5))))
                    ++ s2py "/511 disks in use, drive mapping "
                    ++ join_space (map str_int mapping).
Proof.
  apply (ls_read_only BEEB false (demo_world demo_locked5) demo_locked5).
  - reflexivity.
  - vm_compute. discriminate.
  - vm_compute. reflexivity.
Defined.


(** X7: right after a successful [nw], [ls] prints only the summary
    [0/511 disks in use, drive mapping 0 1 2 3], and [ls -a] prints the 511
    slots as unnamed [Unformatted] lines numbered 000 to 510 before it. *)
Theorem nw_then_ls (mmb : path) (force : bool) (w : world) :
  fs w mmb = None \/ force = true ->
  fst (action_ls mmb false (snd (action_nw mmb force w))) = Ok [ls_summary_fresh] /\
  fst (action_ls mmb true (snd (action_nw mmb force w))) =
    Ok (map (fun i => ls_line (Z.of_nat i) (mkDisk [] UNFORMATTED)) (seq 0 511)
        ++ [ls_summary_fresh]).
Proof.
  intro Hok. destruct (run_action_nw mmb force w Hok) as [tr E]. rewrite E. cbn [snd].
  assert (Hf : fs (mkWorld (fs_set (fs w) mmb (Some nw_file)) tr) mmb = Some nw_file)
    by apply fs_set_eq.
  assert (Hl : 8192 <= f_len nw_file) by (vm_compute; discriminate).
  assert (Hc : catalog_of nw_file = Some (repeat (mkDisk [] UNFORMATTED) 511))
    by (vm_compute; reflexivity).
  split; unfold action_ls;
  step ltac:(exact (run_open_existing _ _ _ Hf));
  step ltac:(apply (run_read_mapping mmb 0 _ nw_file Hf); lia);
  step ltac:(apply (run_read_catalog mmb nw_file); [exact Hf | exact Hl | exact Hc]);
  vm_compute; reflexivity.
Qed.

Lemma nw_then_ls_witness :
  fst (action_ls BEEB false (snd (action_nw BEEB true (demo_world demo_locked5))))
  = Ok [ls_summary_fresh].
Proof.
  apply (nw_then_ls BEEB true (demo_world demo_locked5)). right. reflexivity.
Defined.

Lemma record_at_ext fl fl' (i : Z) :
  f_len fl' = f_len fl ->
  (forall k, 0 <= k < 12 -> f_data fl' (16 + i * 16 + k) = f_data fl (16 + i * 16 + k)) ->
  record_at fl' i =
  match record_at fl i with
  | Some d => Some (mkDisk (name d) (parse_status_byte (f_data fl' (16 + i * 16 + 15))))
  | None => None
  end.
Proof.
  intros Hl Hd. unfold record_at.
  rewrite (file_read_ext fl' fl (16 + i * 16) (16 + i * 16) 12).
  - destruct (parse_name (file_read fl (16 + i * 16) 12)); reflexivity.
  - unfold read_count. rewrite Hl. reflexivity.
  - intros k Hk. unfold read_count in Hk. apply Hd. lia.
Qed.

Lemma parse_status_byte_as_status (st : Status) :
  parse_status_byte (hd 0 (as_status st)) = st.
Proof. destruct st; reflexivity. Qed.

Lemma disk_eta (d : Disk) : mkDisk (name d) (status d) = d.
Proof. destruct d; reflexivity. Qed.

(** Marking slot [i] changes the status of that slot in the catalog and
    nothing else. *)
Lemma catalog_mark (st : Status) fl cat (i : Z) :
  catalog_of fl = Some cat -> 8192 <= f_len fl -> 0 <= i < 511 ->
  exists cat', catalog_of (mark_file st fl i) = Some cat' /\
    length cat' = 511%nat /\
    nth (Z.to_nat i) cat' dflt_disk = mkDisk (name (nth (Z.to_nat i) cat dflt_disk)) st /\
    (forall j, j <> Z.to_nat i -> nth j cat' dflt_disk = nth j cat dflt_disk).
Proof.
  intros Hcat Hlen Hi.
  assert (Hl' : f_len (mark_file st fl i) = f_len fl) by (apply mark_file_len; lia).
  assert (Hrec : forall j, 0 <= j < 511 ->
            record_at (mark_file st fl i) j =
            Some (mkDisk (name (nth (Z.to_nat j) cat dflt_disk))
                         (if j =? i then st else status (nth (Z.to_nat j) cat dflt_disk)))).
  { intros j Hj. rewrite record_at_ext with (fl := fl); [| exact Hl' |].
    - rewrite (catalog_nth fl cat j Hcat Hj). f_equal. f_equal.
      rewrite mark_file_data. rewrite (catalog_status fl cat j Hcat Hj).
      destruct (Z.eqb_spec j i) as [->|Hne].
      + rewrite Z.eqb_refl. apply parse_status_byte_as_status.
      + destruct (Z.eqb_spec (16 + j * 16 + 15) (16 + i * 16 + 15)); [lia|reflexivity].
    - intros k Hk. rewrite mark_file_data.
      destruct (Z.eqb_spec (16 + j * 16 + k) (16 + i * 16 + 15)); [lia|reflexivity]. }
  destruct (records_from_some (mark_file st fl i) 511 0) as [cat' Hcat'].
  { intros j Hj. rewrite Hrec by lia. discriminate. }
  fold (catalog_of (mark_file st fl i)) in Hcat'.
  exists cat'. split; [exact Hcat'|]. split; [exact (catalog_length _ _ Hcat')|].
  split.
  - pose proof (catalog_nth _ _ i Hcat' Hi) as E. rewrite Hrec in E by lia.
    rewrite Z.eqb_refl in E. injection E as E. symmetry. exact E.
  - intros j Hj. destruct (Nat.lt_ge_cases j 511) as [Hj5|Hj5].
    + pose proof (catalog_nth _ _ (Z.of_nat j) Hcat' ltac:(lia)) as E.
      rewrite Hrec in E by lia. rewrite Nat2Z.id in E.
      destruct (Z.eqb_spec (Z.of_nat j) i); [lia|].
      injection E as E. rewrite <- E. apply disk_eta.
    + rewrite !nth_overflow; [reflexivity | |].
      * rewrite (catalog_length _ _ Hcat). exact Hj5.
      * rewrite (catalog_length _ _ Hcat'). exact Hj5.
Qed.

Lemma batch_action_visit (op : batch_op) mmb indices :
  batch_action op mmb indices =
  visit mmb indices (Some (mk_ensurer (batch_expect op))) (mk_marker (batch_mark op)).
Proof. destruct op; reflexivity. Qed.

Lemma run_single_op (op : batch_op) (mmb : path) (i : Z) w fl cat :
  fs w mmb = Some fl -> 8192 <= f_len fl -> catalog_of fl = Some cat -> 0 <= i < 511 ->
  batch_action op mmb [index i] w =
  (if Status_eqb (status (nth (Z.to_nat i) cat dflt_disk)) (batch_expect op)
   then (Ok tt, mkWorld (fs_set (fs w) mmb (Some (mark_file (batch_mark op) fl i)))
                        (trace w ++ catalog_reads mmb ++ [mark_event mmb (batch_mark op) i]))
   else (Err (Oops (MsgDiskIs (PInt i) (status (nth (Z.to_nat i) cat dflt_disk)))),
         mkWorld (fs w) (trace w ++ catalog_reads mmb))).
Proof.
  intros Hfs Hlen Hcat Hi.
  rewrite batch_action_visit, (visit_batch mmb [index i] _ _ w fl cat Hfs Hlen Hcat)
    by (constructor; [apply index_shaped_index | constructor]).
  rewrite (index_in_range i Hi). cbn [batch_plan].
  destruct (Z.leb_spec 0 i), (Z.ltb_spec i 511); try lia. cbn [andb].
  destruct (Status_eqb _ _); cbn [fst snd res_of fold_left map].
  - reflexivity.
  - rewrite <- Hfs, fs_set_id, app_nil_r. reflexivity.
Qed.

Lemma Status_eqb_spec (a b : Status) : Status_eqb a b = true <-> a = b.
Proof. destruct a, b; cbn; split; congruence. Qed.

(** X8: delete, undelete, lock and unlock applied to one slot [i]: when the
    slot has the status the command expects, the command succeeds with one
    one-byte write, and the catalog read back afterwards has slot [i] with
    its old name and the new status, every other slot unchanged; otherwise
    it fails with [MsgDiskIs] after the catalog reads, and nothing is
    written. *)
Theorem slot_status_transition (op : batch_op) (mmb : path) (i : Z) w fl cat :
  fs w mmb = Some fl -> 8192 <= f_len fl -> catalog_of fl = Some cat -> 0 <= i < 511 ->
  (status (nth (Z.to_nat i) cat dflt_disk) = batch_expect op ->
   exists fl' cat',
     batch_action op mmb [index i] w =
       (Ok tt, mkWorld (fs_set (fs w) mmb (Some fl'))
                       (trace w ++ catalog_reads mmb ++ [mark_event mmb (batch_mark op) i])) /\
     f_len fl' = f_len fl /\ catalog_of fl' = Some cat' /\
     nth (Z.to_nat i) cat' dflt_disk =
       mkDisk (name (nth (Z.to_nat i) cat dflt_disk)) (batch_mark op) /\
     (forall j, j <> Z.to_nat i -> nth j cat' dflt_disk = nth j cat dflt_disk)) /\
  (status (nth (Z.to_nat i) cat dflt_disk) <> batch_expect op ->
   batch_action op mmb [index i] w =
     (Err (Oops (MsgDiskIs (PInt i) (status (nth (Z.to_nat i) cat dflt_disk)))),
      mkWorld (fs w) (trace w ++ catalog_reads mmb))).
Proof.
  intros Hfs Hlen Hcat Hi.
  rewrite (run_single_op op mmb i w fl cat Hfs Hlen Hcat Hi). split.
  - intro Hst. apply Status_eqb_spec in Hst. rewrite Hst.
    destruct (catalog_mark (batch_mark op) fl cat i Hcat Hlen Hi)
      as (cat' & Hc' & _ & Hn & Ho).
    exists (mark_file (batch_mark op) fl i), cat'.
    split; [reflexivity|]. split; [apply mark_file_len; lia|].
    split; [exact Hc'|]. split; [exact Hn | exact Ho].
  - intro Hst. destruct (Status_eqb _ _) eqn:E; [apply Status_eqb_spec in E; congruence|].
    reflexivity.
Qed.

Lemma slot_status_transition_witness :
  (exists fl' cat',
     batch_action BatchRo BEEB [index 6] (demo_world demo_locked5) =
       (Ok tt, mkWorld (fs_set (fs (demo_world demo_locked5)) BEEB (Some fl'))
                       ([] ++ catalog_reads BEEB ++ [mark_event BEEB READONLY 6])) /\
     f_len fl' = f_len demo_locked5 /\ catalog_of fl' = Some cat' /\
     nth 6 cat' dflt_disk = mkDisk (name (nth 6 (catalog_or_nil demo_locked5) dflt_disk)) READONLY /\
     (forall j, j <> 6%nat -> nth j cat' dflt_disk = nth j (catalog_or_nil demo_locked5) dflt_disk)) /\
  batch_action BatchRo BEEB [index 5] (demo_world demo_locked5) =
    (Err (Oops (MsgDiskIs (PInt 5) READONLY)),
     mkWorld (fs (demo_world demo_locked5)) ([] ++ catalog_reads BEEB)).
Proof.
  destruct (slot_status_transition BatchRo BEEB 6 (demo_world demo_locked5) demo_locked5
              (catalog_or_nil demo_locked5)) as [H1 _];
    [reflexivity | vm_compute; discriminate | vm_compute; reflexivity | lia |].
  destruct (slot_status_transition BatchRo BEEB 5 (demo_world demo_locked5) demo_locked5
              (catalog_or_nil demo_locked5)) as [_ H2];
    [reflexivity | vm_compute; discriminate | vm_compute; reflexivity | lia |].
  split.
  - apply H1. vm_compute. reflexivity.
  - apply H2. vm_compute. discriminate.
Defined.

Lemma undo_pair_ok (op1 op2 : batch_op) (i : Z) mmb w fl cat :
  batch_mark op1 = batch_expect op2 -> batch_mark op2 = status (nth (Z.to_nat i) cat dflt_disk) ->
  status (nth (Z.to_nat i) cat dflt_disk) = batch_expect op1 ->
  fs w mmb = Some fl -> 8192 <= f_len fl -> catalog_of fl = Some cat -> 0 <= i < 511 ->
  exists fl'',
    fst (batch_action op1 mmb [index i] w) = Ok tt /\
    fst (batch_action op2 mmb [index i] (snd (batch_action op1 mmb [index i] w))) = Ok tt /\
    fs (snd (batch_action op2 mmb [index i] (snd (batch_action op1 mmb [index i] w)))) =
      fs_set (fs w) mmb (Some fl'') /\
    f_len fl'' = f_len fl /\ catalog_of fl'' = Some cat.
Proof.
  intros H12 H21 Hst Hfs Hlen Hcat Hi.
  rewrite (run_single_op op1 mmb i w fl cat Hfs Hlen Hcat Hi).
  assert (E1 : Status_eqb (status (nth (Z.to_nat i) cat dflt_disk)) (batch_expect op1) = true)
    by (apply Status_eqb_spec; exact Hst).
  rewrite E1. cbn [fst snd].
  set (fl1 := mark_file (batch_mark op1) fl i).
  assert (Hl1 : f_len fl1 = f_len fl) by (apply mark_file_len; lia).
  destruct (catalog_mark (batch_mark op1) fl cat i Hcat Hlen Hi) as (cat1 & Hc1 & Hn1 & Hi1 & Ho1).
  fold fl1 in Hc1.
  rewrite (run_single_op op2 mmb i (mkWorld (fs_set (fs w) mmb (Some fl1)) _) fl1 cat1
             (fs_set_eq (fs w) mmb (Some fl1)) ltac:(lia) Hc1 Hi).
  assert (E2 : Status_eqb (status (nth (Z.to_nat i) cat1 dflt_disk)) (batch_expect op2) = true)
    by (apply Status_eqb_spec; rewrite Hi1; exact H12).
  rewrite E2. cbn [fst snd fs].
  destruct (catalog_mark (batch_mark op2) fl1 cat1 i Hc1 ltac:(lia) Hi)
    as (cat2 & Hc2 & Hn2 & Hi2 & Ho2).
  exists (mark_file (batch_mark op2) fl1 i).
  split; [reflexivity|]. split; [reflexivity|].
  split; [apply fs_set_set|].
  split; [rewrite mark_file_len by lia; exact Hl1|].
  rewrite Hc2. f_equal. apply nth_ext with dflt_disk dflt_disk.
  - rewrite Hn2. symmetry. exact (catalog_length _ _ Hcat).
  - intros k _. destruct (Nat.eq_dec k (Z.to_nat i)) as [->|Hk].
    + rewrite Hi2, Hi1. cbn [name]. rewrite H21. apply disk_eta.
    + rewrite Ho2, Ho1 by exact Hk. reflexivity.
Qed.

(** X9: delete then undelete, undelete then delete, lock then unlock and
    unlock then lock, applied to the same slot that has the status the
    first command expects, both succeed and give back the catalog the
    container had before, name included, with the file length unchanged. *)
Theorem slot_op_undo (op1 op2 : batch_op) (mmb : path) (i : Z) w fl cat :
  In (op1, op2) [(BatchRm, BatchUn); (BatchUn, BatchRm); (BatchRo, BatchRw); (BatchRw, BatchRo)] ->
  fs w mmb = Some fl -> 8192 <= f_len fl -> catalog_of fl = Some cat -> 0 <= i < 511 ->
  status (nth (Z.to_nat i) cat dflt_disk) = batch_expect op1 ->
  exists fl'',
    fst (batch_action op1 mmb [index i] w) = Ok tt /\
    fst (batch_action op2 mmb [index i] (snd (batch_action op1 mmb [index i] w))) = Ok tt /\
    fs (snd (batch_action op2 mmb [index i] (snd (batch_action op1 mmb [index i] w)))) =
      fs_set (fs w) mmb (Some fl'') /\
    f_len fl'' = f_len fl /\ catalog_of fl'' = Some cat.
Proof.
  intros Hin Hfs Hlen Hcat Hi Hst.
  destruct Hin as [E|[E|[E|[E|[]]]]]; injection E as <- <-;
    apply undo_pair_ok; try assumption; try reflexivity; rewrite Hst; reflexivity.
Qed.

Lemma slot_op_undo_witness :
  exists fl'',
    fst (batch_action BatchRm BEEB [index 6] (demo_world demo_locked5)) = Ok tt /\
    fst (batch_action BatchUn BEEB [index 6]
           (snd (batch_action BatchRm BEEB [index 6] (demo_world demo_locked5)))) = Ok tt /\
    fs (snd (batch_action BatchUn BEEB [index 6]
               (snd (batch_action BatchRm BEEB [index 6] (demo_world demo_locked5))))) =
      fs_set (fs (demo_world demo_locked5)) BEEB (Some fl'') /\
    f_len fl'' = f_len demo_locked5 /\ catalog_of fl'' = Some (catalog_or_nil demo_locked5).
Proof.
  apply (slot_op_undo BatchRm BatchUn BEEB 6 (demo_world demo_locked5) demo_locked5
           (catalog_or_nil demo_locked5)).
  - cbn. auto.
  - reflexivity.
  - vm_compute. discriminate.
  - vm_compute. reflexivity.
  - lia.
  - vm_compute. reflexivity.
Defined.
